(** * relx: data sourcing and artifact filtering

    A shallow embedding of [relx/providers.py], of the iteration driver of
    [relx/artifacts.py] and of the group wrapper of [relx/users.py],
    followed by the properties of the filtering pipeline.

    Python values are modelled as follows.
    - [str] is a sequence of Unicode code points, [list N]; the literal
      [py "abc"] is the sequence of the code points of an ASCII text.
    - A [dict] with string keys is a [gmap (list N) pyval].
    - Exceptions are values of [exn]; code that may raise lives in the monad
      [M], which also threads the observable effects: the external commands
      spawned, the lines printed and the progress counter.
    - The Python libraries the program calls ([shlex.split], [lxml]'s parser,
      [re.compile]) and the external process are the fields of the class
      [External]. *)

From Stdlib Require Import ZArith NArith Lia Ascii String.
From stdpp Require Import base option list gmap.

Set Warnings "-register-all".
Local Open Scope N_scope.

(** ** Python strings *)

Abbreviation str := (list N).

Module PyStr.

Definition py (s : string) : str :=
  List.map N_of_ascii (list_ascii_of_string s).

Definition dquote : str := [34].

(** [str.isspace] on one code point: the table of [_PyUnicode_IsWhitespace]. *)
Definition isspace (c : N) : bool :=
  ((9 <=? c) && (c <=? 13)) || ((28 <=? c) && (c <=? 32))
  || (c =? 133) || (c =? 160) || (c =? 5760)
  || ((8192 <=? c) && (c <=? 8202))
  || (c =? 8232) || (c =? 8233) || (c =? 8239) || (c =? 8287)
  || (c =? 12288).

(** The line boundaries of [str.splitlines]: [_PyUnicode_IsLinebreak]. *)
Definition islinebreak (c : N) : bool :=
  ((10 <=? c) && (c <=? 13)) || ((28 <=? c) && (c <=? 30))
  || (c =? 133) || (c =? 8232) || (c =? 8233).

Fixpoint lstrip (s : str) : str :=
  match s with
  | [] => []
  | c :: s' => if isspace c then lstrip s' else s
  end.

Definition rstrip (s : str) : str := rev (lstrip (rev s)).

Definition strip (s : str) : str := rstrip (lstrip s).

(** [str.splitlines()] without [keepends]: [cur] is the line being read.
    A carriage return followed by a line feed is one boundary, and a final
    line is produced only when it is not empty. *)
Fixpoint splitlines_from (cur s : str) : list str :=
  match s with
  | [] => match cur with [] => [] | _ => [cur] end
  | c :: rest =>
      if islinebreak c then
        match rest with
        | d :: rest' =>
            if (c =? 13) && (d =? 10)
            then cur :: splitlines_from [] rest'
            else cur :: splitlines_from [] rest
        | [] => cur :: splitlines_from [] rest
        end
      else splitlines_from (cur ++ [c]) rest
  end.

Definition splitlines (s : str) : list str := splitlines_from [] s.

Fixpoint startswith (s prefix : str) {struct prefix} : bool :=
  match prefix, s with
  | [], _ => true
  | _ :: _, [] => false
  | p :: prefix', c :: s' => (c =? p) && startswith s' prefix'
  end.

Definition endswith (s suffix : str) : bool :=
  startswith (rev s) (rev suffix).

(** [s.startswith(tuple(ps))] and [s.endswith(tuple(ps))]. *)
Definition startswith_any (s : str) (ps : list str) : bool :=
  existsb (startswith s) ps.

Definition endswith_any (s : str) (ps : list str) : bool :=
  existsb (endswith s) ps.

Definition eqb (a b : str) : bool := bool_decide (a = b).

(** [str.encode()], UTF-8 and strict: a surrogate cannot be encoded, and a
    number above U+10FFFF is no character. *)
Definition utf8_char (c : N) : option (list N) :=
  if c <? 128 then Some [c]
  else if c <? 2048 then Some [192 + c / 64; 128 + c mod 64]
  else if (55296 <=? c) && (c <=? 57343) then None
  else if c <? 65536 then
    Some [224 + c / 4096; 128 + (c / 64) mod 64; 128 + c mod 64]
  else if c <? 1114112 then
    Some [240 + c / 262144; 128 + (c / 4096) mod 64; 128 + (c / 64) mod 64;
          128 + c mod 64]
  else None.

Fixpoint encode (s : str) : option (list N) :=
  match s with
  | [] => Some []
  | c :: s' =>
      match utf8_char c, encode s' with
      | Some b, Some bs => Some (b ++ bs)
      | _, _ => None
      end
  end.

End PyStr.

Import PyStr.

(** ** XML elements, as [lxml.etree] exposes them *)

Module etree.

Inductive element : Type :=
  Element (tag : str) (attrib : list (str * str)) (text : option str)
          (children : list element).

Definition tag (e : element) : str :=
  match e with Element t _ _ _ => t end.

Definition attrib (e : element) : list (str * str) :=
  match e with Element _ a _ _ => a end.

Definition text (e : element) : option str :=
  match e with Element _ _ t _ => t end.

Definition children (e : element) : list element :=
  match e with Element _ _ _ c => c end.

(** [e.find(name)]: the first child with that tag, or [None]. *)
Definition find (e : element) (name : str) : option element :=
  List.find (fun c => PyStr.eqb (tag c) name) (children e).

(** [e.findall(name)]: the children with that tag, in document order. *)
Definition findall (e : element) (name : str) : list element :=
  List.filter (fun c => PyStr.eqb (tag c) name) (children e).

(** [e.get(key)]: the attribute value, or [None]. *)
Definition get (e : element) (key : str) : option str :=
  match List.find (fun kv => PyStr.eqb (fst kv) key) (attrib e) with
  | Some kv => Some (snd kv)
  | None => None
  end.

End etree.

(** ** Compiled patterns of [re]

    A compiled pattern is modelled by what it matches: [spans p s i j] says
    that the pattern matches the subject [s] from position [i] up to
    position [j].  The subject and both positions are given because a
    pattern may look around itself: anchors, word boundaries, look-ahead and
    look-behind, back-references.  [search], [match_] and [fullmatch] follow
    the three entry points of the module: a match at some position, at the
    start, of the whole string.  The regular core of the pattern language
    comes with its syntax and a matcher by derivatives. *)

Module re.

Inductive core : Type :=
| Void
| Eps
| Lit (c : N)
| Dot
| Cat (a b : core)
| Alt (a b : core)
| Star (a : core).

Fixpoint nullable (r : core) : bool :=
  match r with
  | Void => false
  | Eps => true
  | Lit _ => false
  | Dot => false
  | Cat a b => nullable a && nullable b
  | Alt a b => nullable a || nullable b
  | Star _ => true
  end.

Fixpoint deriv (c : N) (r : core) : core :=
  match r with
  | Void => Void
  | Eps => Void
  | Lit d => if c =? d then Eps else Void
  | Dot => if c =? 10 then Void else Eps
  | Cat a b =>
      if nullable a then Alt (Cat (deriv c a) b) (deriv c b)
      else Cat (deriv c a) b
  | Alt a b => Alt (deriv c a) (deriv c b)
  | Star a => Cat (deriv c a) (Star a)
  end.

(** The whole of [s] is a word of the core pattern. *)
Fixpoint accepts (r : core) (s : str) : bool :=
  match s with
  | [] => nullable r
  | c :: s' => accepts (deriv c r) s'
  end.

(** The words of a core pattern, as a relation. *)
Inductive Matches : core -> str -> Prop :=
| MEps : Matches Eps []
| MLit c : Matches (Lit c) [c]
| MDot c : c <> 10 -> Matches Dot [c]
| MCat a b s t : Matches a s -> Matches b t -> Matches (Cat a b) (s ++ t)
| MAltL a b s : Matches a s -> Matches (Alt a b) s
| MAltR a b s : Matches b s -> Matches (Alt a b) s
| MStarNil a : Matches (Star a) []
| MStarCons a s t :
    Matches a s -> Matches (Star a) t -> Matches (Star a) (s ++ t).

Record regex : Type := { spans : str -> nat -> nat -> bool }.

(** [s[i:j]]. *)
Definition slice (s : str) (i j : nat) : str := take (j - i) (drop i s).

(** A core pattern looks at nothing but the stretch it matches. *)
Definition of_core (r : core) : regex :=
  {| spans := fun s i j => accepts r (slice s i j) |}.

(** [^p]: without the multi-line flag, the start of the subject only. *)
Definition at_start (p : regex) : regex :=
  {| spans := fun s i j => Nat.eqb i 0 && spans p s i j |}.

(** The positions at which a match that starts at [i] may end. *)
Definition ends (s : str) (i : nat) : list nat :=
  seq i (S (length s) - i).

Definition match_at (p : regex) (s : str) (i : nat) : bool :=
  existsb (spans p s i) (ends s i).

Definition fullmatch (p : regex) (s : str) : bool :=
  spans p s 0 (length s).

(** [re.match]: a match that starts at the start. *)
Definition match_ (p : regex) (s : str) : bool := match_at p s 0.

(** [re.search]: scan the start positions from left to right. *)
Definition search (p : regex) (s : str) : bool :=
  existsb (match_at p s) (seq 0 (S (length s))).

End re.

(** ** Exceptions, effects and the external world *)

(** What a finished process leaves behind ([subprocess.CompletedProcess]). *)
Record CompletedProcess : Type := {
  returncode : Z;
  stdout : str;
  stderr : str
}.

(** The exceptions the modelled code raises or lets through.  The [cause]
    of a [RuntimeError] is the exception named after [from]. *)
Inductive exn : Type :=
| CalledProcessError (cmd : list str) (code : Z) (err : str)
| RuntimeError (msg : str) (cause : option exn)
| ValueError
| UnicodeEncodeError
| XMLSyntaxError
| AttributeError
| re_error.

(** The observable effects of a run: the argument vectors of the processes
    spawned, the lines written by [print], and the advance of the progress
    bar, each in order of occurrence. *)
Record world : Type := {
  spawned : list (list str);
  printed : list str;
  progress : nat
}.

(** What the program does not define itself: [shlex.split] (which raises
    [ValueError] on an unbalanced quotation), the external [osc] process as
    a function of its argument vector, the XML parser of [lxml] on the bytes
    of a document (which raises on a malformed one) and [re.compile]. *)
Class External : Type := {
  shlex_split : str -> option (list str);
  respond : list str -> CompletedProcess;
  etree_fromstring : list N -> option etree.element;
  re_compile : str -> option re.regex
}.

(** [etree.fromstring(text.encode())] where both steps succeed. *)
Definition fromstring `{External} (text : str) : option etree.element :=
  match encode text with
  | Some data => etree_fromstring data
  | None => None
  end.

Definition M (A : Type) : Type := world -> (exn + A) * world.

Definition ret {A} (a : A) : M A := fun w => (inr a, w).

Definition raise {A} (e : exn) : M A := fun w => (inl e, w).

Definition bind {A B} (m : M A) (k : A -> M B) : M B :=
  fun w =>
    match m w with
    | (inr a, w') => k a w'
    | (inl e, w') => (inl e, w')
    end.

Declare Scope py_scope.
Delimit Scope py_scope with py.
Notation "x <- m ;; k" := (bind m (fun x => k))
  (at level 100, m at next level, k at level 200, right associativity) : py_scope.
Notation "m ;; k" := (bind m (fun _ => k))
  (at level 100, k at level 200, right associativity) : py_scope.
Local Open Scope py_scope.

(** [try: m except CalledProcessError as e: h e]. *)
Definition except_CalledProcessError {A}
    (m : M A) (h : list str -> Z -> str -> M A) : M A :=
  fun w =>
    match m w with
    | (inl (CalledProcessError c r e), w') => h c r e w'
    | other => other
    end.

(** [for x in xs: body x]. *)
Fixpoint for_each {A} (xs : list A) (body : A -> M unit) : M unit :=
  match xs with
  | [] => ret tt
  | x :: xs' => body x ;; for_each xs' body
  end.

Definition print (line : str) : M unit :=
  fun w => (inr tt, {| spawned := spawned w;
                       printed := printed w ++ [line];
                       progress := progress w |}).

(** [progress.update(task_id, advance=n)]. *)
Definition progress_update (n : nat) : M unit :=
  fun w => (inr tt, {| spawned := spawned w;
                       printed := printed w;
                       progress := (progress w + n)%nat |}).

Definition of_option {A} (e : exn) (o : option A) : M A :=
  match o with
  | Some a => ret a
  | None => raise e
  end.

(** The world after one more process was spawned. *)
Definition after_spawn (w : world) (command : list str) : world :=
  {| spawned := spawned w ++ [command];
     printed := printed w;
     progress := progress w |}.

(** Modelled from the spec: [run_command] of [relx.utils.tools], which is not
    among the sources.  It spawns one process for the argument vector, waits
    for it and captures its output; a non-zero exit raises the structured
    failure carrying the command, the exit code and the captured stderr,
    which the providers catch as [CalledProcessError]. *)
Definition run_command `{External} (command : list str) : M CompletedProcess :=
  fun w =>
    let result := respond command in
    let w' := after_spawn w command in
    if (returncode result =? 0)%Z then (inr result, w')
    else (inl (CalledProcessError command (returncode result) (stderr result)),
          w').

(** ** Python values held by the dictionaries *)

Inductive pyval : Type :=
| PyNone
| PyStr (s : str)
| PyList (l : list pyval).

Definition of_optional (o : option str) : pyval :=
  match o with
  | Some s => PyStr s
  | None => PyNone
  end.

Abbreviation dict := (gmap (list N) pyval).

(** [not d] for a dictionary. *)
Definition dict_is_empty (d : dict) : bool := Nat.eqb (size d) 0.

(** ** relx/providers.py *)

Module OscProvider.

(** The class has no attributes: an instance is a bare object. *)
Inductive t : Type := new.

Section Methods.
Context `{External}.

(** The command lines, as the f-strings build them. *)
Definition packages_command (api_url project : str) : str :=
  py "osc -A " ++ api_url ++ py " ls " ++ project.

Definition artifacts_command (api_url project package repo_name : str) : str :=
  py "osc -A " ++ api_url ++ py " ls " ++ project ++ py " " ++ package
  ++ py " -b -r " ++ repo_name.

Definition groups_command (api_url group : str) : str :=
  py "osc -A " ++ api_url ++ py " api " ++ dquote ++ py "/group/" ++ group
  ++ dquote.

Definition list_packages (self : t) (api_url project : str) : M (list str) :=
  let command := packages_command api_url project in
  argv <- of_option ValueError (shlex_split command) ;;
  result <- run_command argv ;;
  match stdout result with
  | _ :: _ => ret (List.map strip (splitlines (strip (stdout result))))
  | [] => ret []
  end.

(** The loop of [list_artifacts]; [filtered_artifacts] is the list the loop
    appends to. *)
Fixpoint filter_lines (lines : list str) (repo_name : str)
    (invalid_start invalid_extensions : list str)
    (filtered_artifacts : list str) : list str :=
  match lines with
  | [] => filtered_artifacts
  | line :: lines' =>
      let line := strip line in
      if negb (startswith_any line invalid_start)
         && negb (startswith line (repo_name ++ py "/"))
      then
        if negb (endswith_any line invalid_extensions)
        then filter_lines lines' repo_name invalid_start invalid_extensions
               (filtered_artifacts ++ [line])
        else filter_lines lines' repo_name invalid_start invalid_extensions
               filtered_artifacts
      else filter_lines lines' repo_name invalid_start invalid_extensions
             filtered_artifacts
  end.

Definition list_artifacts (self : t) (api_url project package repo_name : str)
    (invalid_start invalid_extensions : list str) : M (list str) :=
  let command := artifacts_command api_url project package repo_name in
  argv <- of_option ValueError (shlex_split command) ;;
  result <- run_command argv ;;
  match stdout result with
  | [] => ret []
  | _ :: _ =>
      ret (filter_lines (splitlines (strip (stdout result))) repo_name
             invalid_start invalid_extensions [])
  end.

(** The loop over [people] of [get_groups]. *)
Definition userids_of (people : list etree.element) : list pyval :=
  List.flat_map
    (fun person =>
       List.map (fun user => of_optional (etree.get user (py "userid")))
                (etree.findall person (py "person")))
    people.

(** The dictionary [get_groups] fills from the parsed document. *)
Definition group_info (tree : etree.element) (is_fulllist : bool) : dict :=
  let info : dict := ∅ in
  let title := etree.find tree (py "title") in
  let info : dict :=
    <[py "Group" := match title with
                    | Some title => of_optional (etree.text title)
                    | None => PyNone
                    end]> info in
  let email := etree.find tree (py "email") in
  let info : dict :=
    <[py "Email" := match email with
                    | Some email => of_optional (etree.text email)
                    | None => PyNone
                    end]> info in
  let maintainers := etree.findall tree (py "maintainer") in
  let info : dict :=
    <[py "Maintainers" :=
        PyList (List.map
                  (fun tag => of_optional (etree.get tag (py "userid")))
                  maintainers)]> info in
  if is_fulllist then
    let people := etree.findall tree (py "person") in
    <[py "Users" := PyList (userids_of people)]> info
  else info.

Definition get_groups (self : t) (api_url group : str) (is_fulllist : bool)
  : M dict :=
  except_CalledProcessError
    (let command := groups_command api_url group in
     argv <- of_option ValueError (shlex_split command) ;;
     output <- run_command argv ;;
     data <- of_option UnicodeEncodeError (encode (stdout output)) ;;
     tree <- of_option XMLSyntaxError (etree_fromstring data) ;;
     ret (group_info tree is_fulllist))
    (fun cmd code err =>
       raise (RuntimeError
                (py "Failed to get group '" ++ group ++ py "': " ++ strip err)
                (Some (CalledProcessError cmd code err)))).

(** [person.find(name).text]: reading [text] off a missing child raises. *)
Definition child_text (person : etree.element) (name : str) : M pyval :=
  match etree.find person name with
  | Some child => ret (of_optional (etree.text child))
  | None => raise AttributeError
  end.

Definition user_info (person : etree.element) : M dict :=
  login <- child_text person (py "login") ;;
  email <- child_text person (py "email") ;;
  realname <- child_text person (py "realname") ;;
  state <- child_text person (py "state") ;;
  ret (<[py "State" := state]>
         (<[py "Name" := realname]>
            (<[py "Email" := email]> (<[py "User" := login]> (∅ : dict))))).

Fixpoint users_info_of (people : list etree.element) (users_info : list dict)
  : M (list dict) :=
  match people with
  | [] => ret users_info
  | person :: people' =>
      info <- user_info person ;;
      users_info_of people' (users_info ++ [info])
  end.

(** The command line [get_users] builds for a selection of the flags, or
    [None] where it raises. *)
Definition users_command (api_url search_text : str)
    (is_login is_email is_realname : bool) : option str :=
  if is_login then
    Some (py "osc -A " ++ api_url ++ py " api '/search/person?match=@login="
          ++ dquote ++ search_text ++ dquote ++ py "'")
  else if is_email then
    Some (py "osc -A " ++ api_url ++ py " api '/search/person?match=@email="
          ++ dquote ++ search_text ++ dquote ++ py "'")
  else if is_realname then
    Some (py "osc -A " ++ api_url
          ++ py " api '/search/person?match=contains(@realname,"
          ++ dquote ++ search_text ++ dquote ++ py ")'")
  else None.

Definition get_users (self : t) (api_url search_text : str)
    (is_login is_email is_realname : bool) : M (list dict) :=
  except_CalledProcessError
    (command <- of_option (RuntimeError (py "Invalid user search.") None)
                  (users_command api_url search_text
                     is_login is_email is_realname) ;;
     argv <- of_option ValueError (shlex_split command) ;;
     output <- run_command argv ;;
     data <- of_option UnicodeEncodeError (encode (stdout output)) ;;
     tree <- of_option XMLSyntaxError (etree_fromstring data) ;;
     let people := etree.findall tree (py "person") in
     match people with
     | [] => ret []
     | _ :: _ => users_info_of people []
     end)
    (fun cmd code err =>
       raise (RuntimeError
                (py "Failed to get user '" ++ search_text ++ py "': "
                 ++ strip err)
                (Some (CalledProcessError cmd code err)))).

End Methods.

End OscProvider.

Module DataSourcer.

Record t : Type := { _osc_provider : OscProvider.t }.

Section Methods.
Context `{External}.

Definition list_packages (self : t) (api_url project : str) : M (list str) :=
  OscProvider.list_packages (_osc_provider self) api_url project.

Definition list_artifacts (self : t) (api_url project package repo_name : str)
    (invalid_start invalid_extensions : list str) : M (list str) :=
  OscProvider.list_artifacts (_osc_provider self) api_url project package
    repo_name invalid_start invalid_extensions.

Definition get_groups (self : t) (api_url group : str) (is_fulllist : bool)
  : M dict :=
  OscProvider.get_groups (_osc_provider self) api_url group is_fulllist.

Definition get_users (self : t) (api_url search_text : str)
    (is_login is_email is_realname : bool) : M (list dict) :=
  OscProvider.get_users (_osc_provider self) api_url search_text
    is_login is_email is_realname.

End Methods.

End DataSourcer.

Definition create_data_sourcer : DataSourcer.t :=
  let osc_provider := OscProvider.new in
  {| DataSourcer._osc_provider := osc_provider |}.

(** ** relx/users.py *)

Module users.

Section Functions.
Context `{External}.

(** The spinner decorator only draws while the call runs. *)
Definition get_groups (data_sourcer : DataSourcer.t) (api_url group : str)
    (is_fulllist : bool) : M dict :=
  info <- DataSourcer.get_groups data_sourcer api_url group is_fulllist ;;
  if dict_is_empty info
  then raise (RuntimeError (group ++ py " not found.") None)
  else ret info.

(** [get_users] is a generator: nothing runs before its first item is asked
    for.  This is the run of a loop that consumes it to the end, as [main]
    does, with the list of the items it yields in order. *)
Definition get_users (data_sourcer : DataSourcer.t) (api_url search_text : str)
    (is_login is_email is_realname : bool) : M (list dict) :=
  users_info <- DataSourcer.get_users data_sourcer api_url search_text
                  is_login is_email is_realname ;;
  match users_info with
  | [] => raise (RuntimeError (search_text ++ py " not found.") None)
  | _ :: _ => ret users_info
  end.

End Functions.

End users.

(** ** relx/artifacts.py *)

Module artifacts.

(** A repository descriptor of the configuration. *)
Record repo_info : Type := { name : str; pattern : str }.

Section Functions.
Context `{External}.

Definition list_artifacs (api_url project : str) (packages : list str)
    (invalid_start invalid_extensions : list str) (repo_info : repo_info)
    (data_sourcer : DataSourcer.t) : M unit :=
  pattern <- of_option re_error (re_compile (pattern repo_info)) ;;
  for_each packages
    (fun package =>
       (if re.search pattern package then
          lines <- DataSourcer.list_artifacts data_sourcer api_url project
                     package (name repo_info) invalid_start
                     invalid_extensions ;;
          for_each lines print
        else ret tt) ;;
       progress_update 1).

(** The arguments [main] reads off the parsed command line. *)
Record Namespace : Type := { osc_instance : str; project : str }.

(** The [artifacts] table of the configuration. *)
Record artifacts_config : Type := {
  repo_info_list : list repo_info;
  invalid_start : list str;
  invalid_extensions : list str
}.

(** The total [main] announces for the progress bar. *)
Definition total_steps (config : artifacts_config) (packages : list str)
  : nat :=
  (length (repo_info_list config) * length packages)%nat.

(** [progress.add_task(description, total=n)]: the bar is drawn, the world
    records only its advance. *)
Definition progress_add_task (total : nat) : M unit := ret tt.

Definition main (args : Namespace) (config : artifacts_config)
    (data_sourcer : DataSourcer.t) : M unit :=
  packages <- DataSourcer.list_packages data_sourcer (osc_instance args)
                (project args) ;;
  let total_steps := total_steps config packages in
  progress_add_task total_steps ;;
  for_each (repo_info_list config)
    (fun repo_info =>
       list_artifacs (osc_instance args) (project args) packages
         (invalid_start config) (invalid_extensions config) repo_info
         data_sourcer).

End Functions.

End artifacts.

(** ** The condition of the filter, as one predicate

    [keeps repo_name invalid_start invalid_extensions line] is the condition
    under which the loop of [list_artifacts] appends the trimmed [line]. *)
Definition keeps (repo_name : str) (invalid_start invalid_extensions : list str)
    (line : str) : bool :=
  negb (startswith_any line invalid_start)
  && negb (startswith line (repo_name ++ py "/"))
  && negb (endswith_any line invalid_extensions).

(** All the characters of a string are white space. *)
Definition blank (s : str) : bool := forallb isspace s.

(** The world after is the world before, or the world before with one more
    spawned process; nothing is printed and the progress does not move. *)
Definition at_most_one_spawn (w w' : world) : Prop :=
  printed w' = printed w
  /\ progress w' = progress w
  /\ (spawned w' = spawned w \/ exists argv, spawned w' = spawned w ++ [argv]).

(** ** The records of the user search, as values

    The children [get_users] reads off a person, whether a person has them
    all, and the dictionary it builds for a person that has. *)
Definition required_children : list str :=
  [py "login"; py "email"; py "realname"; py "state"].

Definition complete (person : etree.element) : bool :=
  forallb (fun name => match etree.find person name with
                       | Some _ => true
                       | None => false
                       end)
          required_children.

Definition field (person : etree.element) (name : str) : pyval :=
  match etree.find person name with
  | Some child => of_optional (etree.text child)
  | None => PyNone
  end.

Definition user_record (person : etree.element) : dict :=
  <[py "State" := field person (py "state")]>
    (<[py "Name" := field person (py "realname")]>
       (<[py "Email" := field person (py "email")]>
          (<[py "User" := field person (py "login")]> (∅ : dict)))).

(** ** A concrete environment for the examples *)

(** [shlex.split] in its default POSIX mode, without comments: blanks
    separate the words, quotes group, a backslash escapes. *)
Module shlex.

Inductive state : Type :=
| Blank
| Word
| Quote (q : N)
| Escape (escapedstate : option N).

Definition whitespace (c : N) : bool :=
  (c =? 32) || (c =? 9) || (c =? 13) || (c =? 10).

Definition quotes (c : N) : bool := (c =? 39) || (c =? 34).

Definition escape (c : N) : bool := c =? 92.

Definition emit (quoted : bool) (token : str) (rest : option (list str))
  : option (list str) :=
  match token, quoted with
  | [], false => rest
  | _, _ => option_map (cons token) rest
  end.

Fixpoint read (st : state) (quoted : bool) (token s : str)
  : option (list str) :=
  match s with
  | [] =>
      match st with
      | Blank => Some []
      | Word => emit quoted token (Some [])
      | Quote _ => None
      | Escape _ => None
      end
  | c :: s' =>
      match st with
      | Blank =>
          if whitespace c then read Blank false [] s'
          else if escape c then read (Escape None) false [] s'
          else if quotes c then read (Quote c) false [] s'
          else read Word false [c] s'
      | Word =>
          if whitespace c then emit quoted token (read Blank false [] s')
          else if quotes c then read (Quote c) quoted token s'
          else if escape c then read (Escape None) quoted token s'
          else read Word quoted (token ++ [c]) s'
      | Quote q =>
          if c =? q then read Word true token s'
          else if escape c && (q =? 34) then read (Escape (Some q)) true token s'
          else read (Quote q) true (token ++ [c]) s'
      | Escape None => read Word quoted (token ++ [c]) s'
      | Escape (Some q) =>
          if negb (c =? 92) && negb (c =? q)
          then read (Quote q) quoted (token ++ [92; c]) s'
          else read (Quote q) quoted (token ++ [c]) s'
      end
  end.

Definition split (s : str) : option (list str) := read Blank false [] s.

(** A character that is no blank, no quote and no backslash. *)
Definition plain (c : N) : bool :=
  negb (whitespace c) && negb (quotes c) && negb (escape c).

(** A word the shell reads as it stands: not empty, of plain characters. *)
Definition word (s : str) : bool :=
  match s with
  | [] => false
  | _ :: _ => forallb plain s
  end.

End shlex.

Module Example.

Local Open Scope string_scope.

Definition newline : str := [10].

(** A pattern without metacharacters stands for itself. *)
Fixpoint literal_core (s : str) : re.core :=
  match s with
  | [] => re.Eps
  | c :: s' => re.Cat (re.Lit c) (literal_core s')
  end.

Definition literal (s : str) : re.regex := re.of_core (literal_core s).

Definition group_xml : str :=
  py "<group><title>qa</title><maintainer userid='amy'/></group>".

Definition group_tree : etree.element :=
  etree.Element (py "group") [] None
    [ etree.Element (py "title") [] (Some (py "qa")) [];
      etree.Element (py "maintainer") [(py "userid", py "amy")] None [] ].

Definition users_xml : str :=
  py "<collection><person><login>amy</login><email>amy@example.org</email><realname>Amy</realname><state>confirmed</state></person></collection>".

Definition users_tree : etree.element :=
  etree.Element (py "collection") [] None
    [ etree.Element (py "person") [] None
        [ etree.Element (py "login") [] (Some (py "amy")) [];
          etree.Element (py "email") [] (Some (py "amy@example.org")) [];
          etree.Element (py "realname") [] (Some (py "Amy")) [];
          etree.Element (py "state") [] (Some (py "confirmed")) [] ] ].

Definition packages_listing : str :=
  py "libfoo" ++ newline ++ newline ++ py "foo-tools" ++ newline
  ++ py "bar" ++ newline.

Definition artifacts_listing : str :=
  py "standard/x86_64" ++ newline ++ py " _buildenv" ++ newline
  ++ py " app-1.0.rpm" ++ newline ++ py " app-1.0.src.rpm" ++ newline.

(** The server at [https://down.example] answers every request with exit
    code 1; any other server lists packages, lists binaries, or answers the
    API requests with the documents above. *)
Definition osc (argv : list str) : CompletedProcess :=
  if PyStr.eqb (nth 2 argv []) (py "https://down.example") then
    {| returncode := 1; stdout := [];
       stderr := py "Server returned an error: HTTP Error 503" ++ newline |}
  else if PyStr.eqb (nth 3 argv []) (py "ls") then
    {| returncode := 0;
       stdout := if Nat.eqb (length argv) 5 then packages_listing
                 else artifacts_listing;
       stderr := [] |}
  else
    {| returncode := 0;
       stdout := if startswith (nth 4 argv []) (py "/group/") then group_xml
                 else users_xml;
       stderr := [] |}.

(** The parser of the examples knows two documents; both are ASCII, so
    their bytes are their code points. *)
Definition parse (data : list N) : option etree.element :=
  if PyStr.eqb data group_xml then Some group_tree
  else if PyStr.eqb data users_xml then Some users_tree
  else None.

Definition env : External := {|
  shlex_split := shlex.split;
  respond := osc;
  etree_fromstring := parse;
  re_compile := fun s => Some (literal s)
|}.

(** A second environment, for the edge cases.  A listing of the package
    [foo-broken] fails; the server [idle] answers with a blank output, the
    server [empty] with a search result without persons, the server
    [partial] with a person that has no [email] child; the pattern [(] does
    not compile.  Everything else is as in [env]. *)
Definition empty_xml : str := py "<collection/>".

Definition empty_tree : etree.element :=
  etree.Element (py "collection") [] None [].

Definition partial_xml : str :=
  py "<collection><person><login>bob</login><realname>Bob</realname><state>confirmed</state></person></collection>".

Definition partial_tree : etree.element :=
  etree.Element (py "collection") [] None
    [ etree.Element (py "person") [] None
        [ etree.Element (py "login") [] (Some (py "bob")) [];
          etree.Element (py "realname") [] (Some (py "Bob")) [];
          etree.Element (py "state") [] (Some (py "confirmed")) [] ] ].

Definition lab_osc (argv : list str) : CompletedProcess :=
  if PyStr.eqb (nth 5 argv []) (py "foo-broken") then
    {| returncode := 1; stdout := [];
       stderr := py "buildinfo not found" ++ newline |}
  else if PyStr.eqb (nth 2 argv []) (py "https://idle.example") then
    {| returncode := 0; stdout := py "  " ++ newline; stderr := [] |}
  else if PyStr.eqb (nth 2 argv []) (py "https://empty.example") then
    {| returncode := 0; stdout := empty_xml; stderr := [] |}
  else if PyStr.eqb (nth 2 argv []) (py "https://partial.example") then
    {| returncode := 0; stdout := partial_xml; stderr := [] |}
  else osc argv.

Definition lab_parse (data : list N) : option etree.element :=
  if PyStr.eqb data empty_xml then Some empty_tree
  else if PyStr.eqb data partial_xml then Some partial_tree
  else parse data.

Definition lab : External := {|
  shlex_split := shlex.split;
  respond := lab_osc;
  etree_fromstring := lab_parse;
  re_compile := fun s => if PyStr.eqb s (py "(") then None
                         else Some (literal s)
|}.

Definition start : world := {| spawned := []; printed := []; progress := 0 |}.

Definition api : str := py "https://api.example".

Definition down : str := py "https://down.example".

End Example.

(** * Properties *)

(** ** Prefixes, suffixes and trimming *)

Section StringFacts.

Lemma startswith_spec (s p : str) :
  startswith s p = true <-> exists t, s = p ++ t.
Proof.
  revert s; induction p as [|a p IH]; intros s; simpl.
  - split; [intros _; by exists s | done].
  - destruct s as [|c s]; simpl.
    + split; [done | intros [t Ht]; discriminate].
    + rewrite andb_true_iff, N.eqb_eq, IH. split.
      * intros [-> [t ->]]. by exists t.
      * intros [t Ht]. injection Ht as -> ->. eauto.
Qed.

Lemma endswith_spec (s p : str) :
  endswith s p = true <-> exists t, s = t ++ p.
Proof.
  unfold endswith. rewrite startswith_spec. split.
  - intros [t Ht]. exists (rev t).
    rewrite <- (rev_involutive s), Ht, rev_app_distr.
    by rewrite rev_involutive.
  - intros [t ->]. exists (rev t). by rewrite rev_app_distr.
Qed.

Lemma startswith_any_spec (s : str) (ps : list str) :
  startswith_any s ps = true <-> exists p, p ∈ ps /\ exists t, s = p ++ t.
Proof.
  unfold startswith_any. rewrite existsb_exists.
  split; intros [p [Hp Hs]]; exists p.
  - by rewrite list_elem_of_In, <- startswith_spec.
  - by rewrite <- list_elem_of_In, startswith_spec.
Qed.

Lemma endswith_any_spec (s : str) (ps : list str) :
  endswith_any s ps = true <-> exists p, p ∈ ps /\ exists t, s = t ++ p.
Proof.
  unfold endswith_any. rewrite existsb_exists.
  split; intros [p [Hp Hs]]; exists p.
  - by rewrite list_elem_of_In, <- endswith_spec.
  - by rewrite <- list_elem_of_In, endswith_spec.
Qed.

Lemma lstrip_app_stop (a b : str) (c : N) :
  isspace c = false -> lstrip (a ++ c :: b) = lstrip a ++ c :: b.
Proof.
  intros Hc. induction a as [|x a IH]; simpl.
  - by rewrite Hc.
  - destruct (isspace x); [done | reflexivity].
Qed.

Lemma lstrip_idem (s : str) : lstrip (lstrip s) = lstrip s.
Proof.
  induction s as [|c s IH]; simpl; [done |].
  destruct (isspace c) eqn:Hc; [done | simpl; by rewrite Hc].
Qed.

Lemma lstrip_head (s : str) :
  lstrip s = [] \/ exists c t, lstrip s = c :: t /\ isspace c = false.
Proof.
  induction s as [|c s IH]; simpl; [by left |].
  destruct (isspace c) eqn:Hc; [done | right; eauto].
Qed.

Lemma lstrip_nil_blank (s : str) : lstrip s = [] <-> blank s = true.
Proof.
  induction s as [|c s IH]; simpl; [done |].
  destruct (isspace c); simpl; [done | split; discriminate].
Qed.

Lemma rstrip_cons_stop (c : N) (t : str) :
  isspace c = false -> rstrip (c :: t) = c :: rstrip t.
Proof.
  intros Hc. unfold rstrip. simpl.
  by rewrite lstrip_app_stop, rev_app_distr.
Qed.

Lemma rstrip_idem (s : str) : rstrip (rstrip s) = rstrip s.
Proof. unfold rstrip. by rewrite rev_involutive, lstrip_idem. Qed.

Lemma strip_idem (s : str) : strip (strip s) = strip s.
Proof.
  unfold strip. destruct (lstrip_head s) as [-> | (c & t & -> & Hc)]; [done |].
  rewrite (rstrip_cons_stop c t Hc). simpl. rewrite Hc.
  by rewrite <- (rstrip_cons_stop c t Hc), rstrip_idem.
Qed.

Lemma strip_nil_blank (s : str) : strip s = [] <-> blank s = true.
Proof.
  rewrite <- lstrip_nil_blank. unfold strip.
  destruct (lstrip_head s) as [-> | (c & t & -> & Hc)]; [done |].
  rewrite (rstrip_cons_stop c t Hc). split; discriminate.
Qed.

Lemma lstrip_Forall (P : N -> Prop) (s : str) :
  Forall P s -> Forall P (lstrip s).
Proof.
  induction 1 as [|c s Hc Hs IH]; simpl; [done |].
  destruct (isspace c); [done | by constructor].
Qed.

Lemma strip_Forall (P : N -> Prop) (s : str) :
  Forall P s -> Forall P (strip s).
Proof.
  intros Hs. unfold strip, rstrip.
  apply Forall_rev, lstrip_Forall, Forall_rev, lstrip_Forall, Hs.
Qed.

Lemma splitlines_from_Forall (P : str -> Prop) (n : nat) :
  forall s cur, (length s <= n)%nat ->
    P cur ->
    P [] ->
    (forall l c, P l -> islinebreak c = false -> P (l ++ [c])) ->
    Forall P (splitlines_from cur s).
Proof.
  induction n as [|n IH]; intros s cur Hn Hcur Hnil Hsnoc.
  - destruct s; [| simpl in Hn; lia]. simpl. destruct cur; by repeat constructor.
  - destruct s as [|c rest]; simpl.
    { destruct cur; by repeat constructor. }
    simpl in Hn. destruct (islinebreak c) eqn:Hc.
    + destruct rest as [|d rest'].
      * by repeat constructor.
      * destruct ((c =? 13) && (d =? 10)); constructor; try done;
          apply IH; simpl in *; try done; lia.
    + apply IH; [lia | by apply Hsnoc | done | done].
Qed.

Lemma splitlines_no_linebreak (s : str) :
  Forall (fun line => Forall (fun c => islinebreak c = false) line)
         (splitlines s).
Proof.
  apply (splitlines_from_Forall _ (length s)); [done | done | done |].
  intros l c Hl Hc. apply Forall_app. split; [done | by repeat constructor].
Qed.

End StringFacts.

(** ** The artifact filter *)

Section FilterFacts.

Import OscProvider.

Variables (repo_name : str) (invalid_start invalid_extensions : list str).

Lemma startswith_true_prefix (s p : str) :
  startswith s p = true <-> p `prefix_of` s.
Proof. apply startswith_spec. Qed.

Lemma endswith_true_suffix (s p : str) :
  endswith s p = true <-> p `suffix_of` s.
Proof. apply endswith_spec. Qed.

(** The loop is a left-to-right selection over the trimmed lines. *)
Lemma filter_lines_spec (lines acc : list str) :
  filter_lines lines repo_name invalid_start invalid_extensions acc
  = acc ++ List.filter (keeps repo_name invalid_start invalid_extensions)
                       (List.map strip lines).
Proof.
  revert acc. induction lines as [|line lines IH]; intros acc; simpl.
  - by rewrite app_nil_r.
  - destruct (keeps repo_name invalid_start invalid_extensions (strip line))
      eqn:K; unfold keeps in K;
      destruct (startswith_any (strip line) invalid_start),
               (startswith (strip line) (repo_name ++ py "/")),
               (endswith_any (strip line) invalid_extensions);
      simpl in K; try discriminate; simpl; rewrite IH; try done.
    by rewrite <- app_assoc.
Qed.

Lemma filter_lines_elem (lines : list str) (t : str) :
  t ∈ filter_lines lines repo_name invalid_start invalid_extensions []
  <-> t ∈ List.map strip lines
      /\ keeps repo_name invalid_start invalid_extensions t = true.
Proof.
  rewrite filter_lines_spec. simpl.
  by rewrite !list_elem_of_In, filter_In.
Qed.

Lemma strip_elem (lines : list str) (line : str) :
  line ∈ lines -> strip line ∈ List.map strip lines.
Proof. rewrite !list_elem_of_In. apply in_map. Qed.

Lemma filter_sublist (f : str -> bool) (l : list str) :
  List.filter f l `sublist_of` l.
Proof.
  induction l as [|x l IH]; simpl; [constructor |].
  destruct (f x); by constructor.
Qed.

Lemma filter_all (f : str -> bool) (l : list str) :
  Forall (fun x => f x = true) l -> List.filter f l = l.
Proof.
  induction 1 as [|x l Hx Hl IH]; simpl; [done |].
  by rewrite Hx, IH.
Qed.

End FilterFacts.

(** A subsequence embeds by a strictly increasing map of positions. *)
Lemma sublist_positions (l1 l2 : list str) :
  l1 `sublist_of` l2 ->
  exists f : nat -> nat,
    (forall i j, (i < j)%nat -> (f i < f j)%nat)
    /\ forall i x, l1 !! i = Some x -> l2 !! f i = Some x.
Proof.
  induction 1 as [|x l1 l2 Hsub [f [Hmono Hf]]|x l1 l2 Hsub [f [Hmono Hf]]].
  - exists (fun i => i). split; [done | intros i x Hx; done].
  - exists (fun i => match i with O => O | S i' => S (f i') end). split.
    + intros [|i] [|j] Hij; try lia. specialize (Hmono i j). lia.
    + intros [|i] y Hy; simpl in *; [done | by apply Hf].
  - exists (fun i => S (f i)). split.
    + intros i j Hij. specialize (Hmono i j). lia.
    + intros i y Hy. simpl. by apply Hf.
Qed.

(** ** Runs of the provider *)

Section ProviderRuns.

Context `{External}.

Import OscProvider.

Lemma list_artifacts_ok (api_url project package repo_name : str)
    (invalid_start invalid_extensions : list str) (w : world)
    (argv : list str) :
  shlex_split (artifacts_command api_url project package repo_name)
    = Some argv ->
  returncode (respond argv) = 0%Z ->
  list_artifacts new api_url project package repo_name invalid_start
    invalid_extensions w
  = (inr (filter_lines (splitlines (strip (stdout (respond argv)))) repo_name
            invalid_start invalid_extensions []),
     after_spawn w argv).
Proof.
  intros Hargv Hcode. unfold list_artifacts, bind, of_option, run_command.
  rewrite Hargv. unfold ret at 1. rewrite Hcode. simpl.
  destruct (stdout (respond argv)) eqn:Hout; [done | done].
Qed.

Lemma list_artifacts_inv (api_url project package repo_name : str)
    (invalid_start invalid_extensions : list str) (w w' : world)
    (out : list str) :
  list_artifacts new api_url project package repo_name invalid_start
    invalid_extensions w = (inr out, w') ->
  exists argv,
    shlex_split (artifacts_command api_url project package repo_name)
      = Some argv
    /\ returncode (respond argv) = 0%Z
    /\ out = filter_lines (splitlines (strip (stdout (respond argv))))
               repo_name invalid_start invalid_extensions []
    /\ w' = after_spawn w argv.
Proof.
  unfold list_artifacts, bind, of_option, run_command.
  destruct (shlex_split _) as [argv|] eqn:Hargv; [| discriminate].
  unfold ret at 1.
  destruct (returncode (respond argv) =? 0)%Z eqn:Hcode; [| discriminate].
  apply Z.eqb_eq in Hcode. intros Hrun. exists argv.
  destruct (stdout (respond argv)) eqn:Hout; simpl in Hrun;
    injection Hrun as <- <-; done.
Qed.

Lemma list_packages_ok (api_url project : str) (w : world) (argv : list str) :
  shlex_split (packages_command api_url project) = Some argv ->
  returncode (respond argv) = 0%Z ->
  list_packages new api_url project w
  = (inr (List.map strip (splitlines (strip (stdout (respond argv))))),
     after_spawn w argv).
Proof.
  intros Hargv Hcode. unfold list_packages, bind, of_option, run_command.
  rewrite Hargv. unfold ret at 1. rewrite Hcode. simpl.
  destruct (stdout (respond argv)) eqn:Hout; [done | done].
Qed.

End ProviderRuns.

(** ** Claims about the artifact filter *)

Section FilterClaims.

Import OscProvider.

(** C1, as the spec states it, fails: a line that merely starts with
    [repo_name + "/"] is excluded although it is not that string itself and
    matches no invalid prefix and no invalid extension. *)
Lemma repo_path_line_is_excluded :
  let line := py "repo/foo.rpm" in
  let out := filter_lines [line] (py "repo") [py "_"] [py ".src.rpm"] [] in
  startswith_any (strip line) [py "_"] = false
  /\ endswith_any (strip line) [py ".src.rpm"] = false
  /\ strip line <> py "repo/"
  /\ strip line ∉ out.
Proof.
  repeat split; try reflexivity.
  - intros Heq. vm_compute in Heq. discriminate.
  - vm_compute. apply not_elem_of_nil.
Qed.

(** C1 (amended): among the lines whose trimmed form starts with no invalid
    prefix and ends with no invalid extension, the filter excludes exactly
    those whose trimmed form starts with [repo_name + "/"]; a line that
    starts with [repo_name] not followed by a slash is retained. *)
Theorem filter_excludes_repo_paths
    (lines : list str) (repo_name : str)
    (invalid_start invalid_extensions : list str) (line : str) :
  line ∈ lines ->
  startswith_any (strip line) invalid_start = false ->
  endswith_any (strip line) invalid_extensions = false ->
  let out :=
    filter_lines lines repo_name invalid_start invalid_extensions [] in
  (strip line ∉ out <-> (repo_name ++ py "/") `prefix_of` strip line)
  /\ (forall t, strip line = repo_name ++ t -> ~ py "/" `prefix_of` t ->
        strip line ∈ out).
Proof.
  intros Hin Hpre Hext out.
  assert (Hmem : strip line ∈ out
                 <-> startswith (strip line) (repo_name ++ py "/") = false).
  { unfold out. rewrite filter_lines_elem. unfold keeps.
    rewrite Hpre, Hext. simpl. rewrite andb_true_r, negb_true_iff.
    split; [by intros [_ ?] | intros ?; split; [by apply strip_elem | done]]. }
  split.
  - rewrite Hmem, <- startswith_true_prefix.
    destruct (startswith (strip line) (repo_name ++ py "/")); split; done.
  - intros t Ht Hslash. apply Hmem.
    destruct (startswith _ _) eqn:Hs; [| done].
    apply startswith_true_prefix in Hs as [k Hk]. exfalso. apply Hslash.
    exists k. rewrite Ht, <- app_assoc in Hk. by apply app_inv_head in Hk.
Qed.

Lemma filter_excludes_repo_paths_witness :
  let lines := [py " repo-tools.rpm"; py "repo/x86_64"] in
  let line := py " repo-tools.rpm" in
  let out := filter_lines lines (py "repo") [py "_"] [py ".src.rpm"] [] in
  (strip line ∉ out <-> (py "repo" ++ py "/") `prefix_of` strip line)
  /\ (forall t, strip line = py "repo" ++ t -> ~ py "/" `prefix_of` t ->
        strip line ∈ out).
Proof.
  apply (filter_excludes_repo_paths
           [py " repo-tools.rpm"; py "repo/x86_64"] (py "repo")
           [py "_"] [py ".src.rpm"] (py " repo-tools.rpm"));
    [constructor | reflexivity | reflexivity].
Defined.

(** C4: a line whose trimmed form starts with one of the invalid prefixes, or
    ends with one of the invalid extensions, is excluded from the output,
    whatever the repository name and the rest of the input; the same holds
    of every list [list_artifacts] returns. *)
Theorem filter_drops_invalid `{External}
    (lines : list str) (repo_name : str)
    (invalid_start invalid_extensions : list str) (line : str) :
  line ∈ lines ->
  (exists p, p ∈ invalid_start /\ p `prefix_of` strip line)
  \/ (exists e, e ∈ invalid_extensions /\ e `suffix_of` strip line) ->
  (strip line
     ∉ filter_lines lines repo_name invalid_start invalid_extensions [])
  /\ forall api_url project package w out w',
       list_artifacts new api_url project package repo_name invalid_start
         invalid_extensions w = (inr out, w') ->
       strip line ∉ out.
Proof.
  intros _ Hbad.
  assert (Hk : keeps repo_name invalid_start invalid_extensions (strip line)
               = false).
  { unfold keeps. destruct Hbad as [(p & Hp & Hpre) | (e & He & Hsuf)].
    - assert (startswith_any (strip line) invalid_start = true) as ->; [| done].
      apply startswith_any_spec. exists p. split; [done | apply Hpre].
    - assert (endswith_any (strip line) invalid_extensions = true) as ->.
      { apply endswith_any_spec. exists e. split; [done | apply Hsuf]. }
      by rewrite andb_false_r. }
  split.
  - rewrite filter_lines_elem. intros [_ Hkeep]. congruence.
  - intros api_url project package w out w' Hrun.
    apply list_artifacts_inv in Hrun as (argv & _ & _ & -> & _).
    rewrite filter_lines_elem. intros [_ Hkeep]. congruence.
Qed.

Lemma filter_drops_invalid_witness :
  let lines := [py " _buildenv"; py " app-1.0.rpm"] in
  (strip (py " _buildenv")
     ∉ filter_lines lines (py "standard") [py "_"] [py ".src.rpm"] [])
  /\ forall api_url project package w out w',
       list_artifacts (H := Example.env) new api_url project package
         (py "standard") [py "_"] [py ".src.rpm"] w = (inr out, w') ->
       strip (py " _buildenv") ∉ out.
Proof.
  apply (filter_drops_invalid (H := Example.env)
           [py " _buildenv"; py " app-1.0.rpm"] (py "standard")
           [py "_"] [py ".src.rpm"] (py " _buildenv")).
  - constructor.
  - left. exists (py "_"). split; [constructor |].
    exists (py "buildenv"). reflexivity.
Defined.

(** C5: the filter is one pass that selects in order: its output is a
    subsequence of the trimmed input, so the retained lines embed into the
    input by a strictly increasing map of positions. *)
Theorem filter_preserves_order
    (lines : list str) (repo_name : str)
    (invalid_start invalid_extensions : list str) :
  let out :=
    filter_lines lines repo_name invalid_start invalid_extensions [] in
  out `sublist_of` List.map strip lines
  /\ exists f : nat -> nat,
       (forall i j, (i < j)%nat -> (f i < f j)%nat)
       /\ forall i x, out !! i = Some x ->
                      List.map strip lines !! f i = Some x.
Proof.
  intros out.
  assert (Hsub : out `sublist_of` List.map strip lines).
  { unfold out. rewrite filter_lines_spec. simpl. apply filter_sublist. }
  split; [done | by apply sublist_positions].
Qed.

(** C6, as the spec states it, fails twice: a line that starts with
    [repo_name + "/"] without being that string is dropped, and a retained
    line loses its surrounding white space. *)
Lemma unmatched_input_is_changed :
  let invalid_start := [py "_"] in
  let invalid_extensions := [py ".src.rpm"] in
  let unmatched (line : str) :=
    startswith_any line invalid_start = false
    /\ line <> py "standard/"
    /\ endswith_any line invalid_extensions = false in
  (Forall unmatched [py "standard/x86_64"]
   /\ filter_lines [py "standard/x86_64"] (py "standard") invalid_start
        invalid_extensions [] <> [py "standard/x86_64"])
  /\ (Forall unmatched [py " app-1.0.rpm"]
      /\ filter_lines [py " app-1.0.rpm"] (py "standard") invalid_start
           invalid_extensions [] <> [py " app-1.0.rpm"]).
Proof.
  repeat split; repeat constructor; try reflexivity;
    intros Heq; vm_compute in Heq; discriminate.
Qed.

(** C6 (amended): an empty input yields an empty output; an input in which
    no trimmed line starts with an invalid prefix, starts with
    [repo_name + "/"], or ends with an invalid extension, comes out as the
    list of its trimmed lines, hence unchanged when its lines carry no
    surrounding white space. *)
Theorem filter_identity_on_valid
    (repo_name : str) (invalid_start invalid_extensions : list str) :
  let valid (line : str) :=
    startswith_any (strip line) invalid_start = false
    /\ startswith (strip line) (repo_name ++ py "/") = false
    /\ endswith_any (strip line) invalid_extensions = false in
  filter_lines [] repo_name invalid_start invalid_extensions [] = []
  /\ (forall lines, Forall valid lines ->
        filter_lines lines repo_name invalid_start invalid_extensions []
        = List.map strip lines)
  /\ (forall lines, Forall valid lines ->
        Forall (fun line => strip line = line) lines ->
        filter_lines lines repo_name invalid_start invalid_extensions []
        = lines).
Proof.
  intros valid.
  assert (Hmap : forall lines, Forall valid lines ->
            filter_lines lines repo_name invalid_start invalid_extensions []
            = List.map strip lines).
  { intros lines Hvalid. rewrite filter_lines_spec. simpl.
    apply filter_all. apply Forall_forall. intros t Ht.
    apply list_elem_of_In, in_map_iff in Ht as (line & <- & Hline).
    apply list_elem_of_In in Hline.
    rewrite Forall_forall in Hvalid.
    destruct (Hvalid line Hline) as (Hp & Hr & He).
    unfold keeps. by rewrite Hp, Hr, He. }
  split; [done | split; [done |]].
  intros lines Hvalid Htrim. rewrite (Hmap lines Hvalid).
  induction Htrim as [|line lines Hline Hlines IH]; simpl; [done |].
  rewrite Hline. f_equal. apply IH. by inversion Hvalid.
Qed.

End FilterClaims.

(** ** Claims about the commands and their failures *)

Section CommandClaims.

Import OscProvider.

Lemma map_lookup (f : str -> str) (l : list str) (i : nat) (x : str) :
  l !! i = Some x -> List.map f l !! i = Some (f x).
Proof.
  revert i. induction l as [|y l IH]; intros [|i] Hi; simpl in *; try done.
  - by injection Hi as ->.
  - by apply IH.
Qed.

(** C3, as the spec states it, fails: a blank line between two package
    names is not dropped, it comes out as an empty string. *)
Lemma list_packages_keeps_blank_line :
  stdout (Example.osc [py "osc"; py "-A"; Example.api; py "ls"; py "proj"])
  = py "libfoo" ++ [10; 10] ++ py "foo-tools" ++ [10] ++ py "bar" ++ [10]
  /\ fst (list_packages (H := Example.env) new Example.api (py "proj")
            Example.start)
     = inr [py "libfoo"; []; py "foo-tools"; py "bar"]
  /\ [] ∈ [py "libfoo"; []; py "foo-tools"; py "bar"].
Proof.
  split; [reflexivity | split; [reflexivity |]].
  apply list_elem_of_In. right. by left.
Qed.

(** C3 (amended): when the command succeeds, [list_packages] returns the
    lines of the trimmed stdout, split at the line boundaries, each
    whitespace-trimmed and in source order.  Lines are not dropped: the
    result has one element per line, and an element is the empty string
    exactly when its line is blank. *)
Theorem list_packages_lines `{External}
    (api_url project : str) (w : world) (argv : list str) :
  shlex_split (packages_command api_url project) = Some argv ->
  returncode (respond argv) = 0%Z ->
  let lines := splitlines (strip (stdout (respond argv))) in
  exists packages,
    list_packages new api_url project w = (inr packages, after_spawn w argv)
    /\ length packages = length lines
    /\ (forall i line, lines !! i = Some line ->
          packages !! i = Some (strip line))
    /\ Forall (fun p => strip p = p
                        /\ Forall (fun c => islinebreak c = false) p)
              packages
    /\ (forall i line, lines !! i = Some line ->
          (packages !! i = Some [] <-> blank line = true)).
Proof.
  intros Hargv Hcode lines. exists (List.map strip lines).
  split; [by apply list_packages_ok |].
  split; [apply length_map |].
  split; [intros i line Hi; by apply map_lookup |].
  split.
  - apply Forall_map. unfold lines.
    eapply Forall_impl; [apply splitlines_no_linebreak |].
    intros line Hline. simpl. split; [apply strip_idem | by apply strip_Forall].
  - intros i line Hi. rewrite (map_lookup strip lines i line Hi).
    rewrite <- strip_nil_blank. split; [by intros [= ->] | by intros ->].
Qed.

Lemma list_packages_lines_witness :
  let argv := [py "osc"; py "-A"; Example.api; py "ls"; py "proj"] in
  let lines := splitlines (strip (stdout (Example.osc argv))) in
  exists packages,
    list_packages (H := Example.env) new Example.api (py "proj") Example.start
    = (inr packages, after_spawn Example.start argv)
    /\ length packages = length lines
    /\ (forall i line, lines !! i = Some line ->
          packages !! i = Some (strip line))
    /\ Forall (fun p => strip p = p
                        /\ Forall (fun c => islinebreak c = false) p)
              packages
    /\ (forall i line, lines !! i = Some line ->
          (packages !! i = Some [] <-> blank line = true)).
Proof.
  apply (list_packages_lines (H := Example.env) Example.api (py "proj")
           Example.start
           [py "osc"; py "-A"; Example.api; py "ls"; py "proj"]);
    reflexivity.
Defined.

(** C7: when the external command exits with a non-zero code, the operation
    fails.  [get_groups] and [get_users] raise an error whose message ends
    with the trimmed stderr and whose cause is the failure of the command,
    carrying the argument vector, the exit code and the captured stderr as
    they were; the listings let that failure through unchanged.  In each
    case exactly one process was spawned: nothing is retried. *)
Theorem nonzero_exit_is_raised `{External} (w : world) (argv : list str) :
  returncode (respond argv) <> 0%Z ->
  let failure :=
    CalledProcessError argv (returncode (respond argv))
                       (stderr (respond argv)) in
  (forall api_url group is_fulllist,
      shlex_split (groups_command api_url group) = Some argv ->
      get_groups new api_url group is_fulllist w
      = (inl (RuntimeError
                (py "Failed to get group '" ++ group ++ py "': "
                 ++ strip (stderr (respond argv)))
                (Some failure)),
         after_spawn w argv))
  /\ (forall api_url search_text is_login is_email is_realname command,
        users_command api_url search_text is_login is_email is_realname
          = Some command ->
        shlex_split command = Some argv ->
        get_users new api_url search_text is_login is_email is_realname w
        = (inl (RuntimeError
                  (py "Failed to get user '" ++ search_text ++ py "': "
                   ++ strip (stderr (respond argv)))
                  (Some failure)),
           after_spawn w argv))
  /\ (forall api_url project,
        shlex_split (packages_command api_url project) = Some argv ->
        list_packages new api_url project w = (inl failure, after_spawn w argv))
  /\ (forall api_url project package repo_name invalid_start
             invalid_extensions,
        shlex_split (artifacts_command api_url project package repo_name)
          = Some argv ->
        list_artifacts new api_url project package repo_name invalid_start
          invalid_extensions w
        = (inl failure, after_spawn w argv)).
Proof.
  intros Hcode failure. apply Z.eqb_neq in Hcode. repeat split.
  - intros api_url group is_fulllist Hargv.
    unfold get_groups, except_CalledProcessError, bind, of_option,
      run_command.
    rewrite Hargv. unfold ret at 1. by rewrite Hcode.
  - intros api_url search_text is_login is_email is_realname command
      Hcommand Hargv.
    unfold get_users, except_CalledProcessError, bind, of_option,
      run_command.
    rewrite Hcommand. unfold ret at 1. rewrite Hargv. unfold ret at 1.
    by rewrite Hcode.
  - intros api_url project Hargv.
    unfold list_packages, bind, of_option, run_command.
    rewrite Hargv. unfold ret at 1. by rewrite Hcode.
  - intros api_url project package repo_name invalid_start
      invalid_extensions Hargv.
    unfold list_artifacts, bind, of_option, run_command.
    rewrite Hargv. unfold ret at 1. by rewrite Hcode.
Qed.

Lemma nonzero_exit_is_raised_witness :
  let argv := [py "osc"; py "-A"; Example.down; py "api"; py "/group/qa"] in
  get_groups (H := Example.env) new Example.down (py "qa") false Example.start
  = (inl (RuntimeError
            (py "Failed to get group 'qa': Server returned an error: HTTP Error 503")
            (Some (CalledProcessError argv 1
                     (py "Server returned an error: HTTP Error 503"
                      ++ Example.newline)))),
     after_spawn Example.start argv).
Proof.
  refine (proj1 (nonzero_exit_is_raised (H := Example.env) Example.start
                   [py "osc"; py "-A"; Example.down; py "api";
                    py "/group/qa"] _)
                Example.down (py "qa") false _).
  - vm_compute. discriminate.
  - reflexivity.
Defined.

End CommandClaims.

(** ** Claims about the user search *)

Section UserSearch.

Context `{External}.

Import OscProvider.

Lemma user_info_pure (person : etree.element) (w : world) :
  exists r, user_info person w = (r, w)
            /\ (r = inl AttributeError \/ exists info, r = inr info).
Proof.
  unfold user_info, bind, child_text.
  destruct (etree.find person (py "login")); [| eexists; split; eauto].
  unfold ret at 1.
  destruct (etree.find person (py "email")); [| eexists; split; eauto].
  unfold ret at 1.
  destruct (etree.find person (py "realname")); [| eexists; split; eauto].
  unfold ret at 1.
  destruct (etree.find person (py "state")); [| eexists; split; eauto].
  unfold ret. eexists; split; eauto.
Qed.

Lemma users_info_of_pure (people : list etree.element) :
  forall (users_info : list dict) (w : world),
  exists r, users_info_of people users_info w = (r, w)
            /\ (r = inl AttributeError \/ exists infos, r = inr infos).
Proof.
  induction people as [|person people IH]; intros users_info w; simpl.
  - eexists; split; [reflexivity | eauto].
  - unfold bind.
    destruct (user_info_pure person w) as (r & -> & [-> | [info ->]]).
    + eexists; split; eauto.
    + apply IH.
Qed.

(** One flag at least is set: the query is tokenized and run once, and
    whatever follows, the failure is not the invalid-search error. *)
Lemma get_users_run (api_url search_text : str)
    (is_login is_email is_realname : bool) (w : world)
    (command : str) (argv : list str) :
  users_command api_url search_text is_login is_email is_realname
    = Some command ->
  shlex_split command = Some argv ->
  exists r,
    get_users new api_url search_text is_login is_email is_realname w
    = (r, after_spawn w argv)
    /\ forall msg, r <> inl (RuntimeError msg None).
Proof.
  intros Hcommand Hargv.
  unfold get_users, except_CalledProcessError, bind, of_option, run_command.
  rewrite Hcommand. unfold ret at 1. rewrite Hargv. unfold ret at 1.
  destruct (returncode (respond argv) =? 0)%Z.
  - destruct (encode (stdout (respond argv))) as [data|];
      [| eexists; split; [reflexivity | done]].
    unfold ret at 1.
    destruct (etree_fromstring data) as [tree|].
    + unfold ret at 1.
      destruct (etree.findall tree (py "person")) as [|person people].
      * eexists; split; [reflexivity | done].
      * destruct (users_info_of_pure (person :: people) [] (after_spawn w argv))
          as (r & -> & [-> | [infos ->]]);
          eexists; (split; [reflexivity | done]).
    + eexists; split; [reflexivity | done].
  - eexists; split; [reflexivity | done].
Qed.

Lemma get_users_untokenized (api_url search_text : str)
    (is_login is_email is_realname : bool) (w : world) (command : str) :
  users_command api_url search_text is_login is_email is_realname
    = Some command ->
  shlex_split command = None ->
  get_users new api_url search_text is_login is_email is_realname w
  = (inl ValueError, w).
Proof.
  intros Hcommand Hargv.
  unfold get_users, except_CalledProcessError, bind, of_option.
  rewrite Hcommand. unfold ret at 1. by rewrite Hargv.
Qed.

Lemma get_users_no_mode (api_url search_text : str) (w : world) :
  get_users new api_url search_text false false false w
  = (inl (RuntimeError (py "Invalid user search.") None), w).
Proof. reflexivity. Qed.

Lemma users_command_some (api_url search_text : str)
    (is_login is_email is_realname : bool) :
  is_login || is_email || is_realname = true ->
  exists command,
    users_command api_url search_text is_login is_email is_realname
    = Some command.
Proof.
  unfold users_command.
  destruct is_login, is_email, is_realname; simpl; try discriminate; eauto.
Qed.

Lemma get_users_not_invalid (api_url search_text : str)
    (is_login is_email is_realname : bool) (w : world) :
  is_login || is_email || is_realname = true ->
  fst (get_users new api_url search_text is_login is_email is_realname w)
  <> inl (RuntimeError (py "Invalid user search.") None).
Proof.
  intros Hmode.
  destruct (users_command_some api_url search_text _ _ _ Hmode)
    as [command Hcommand].
  destruct (shlex_split command) as [argv|] eqn:Hargv.
  - destruct (get_users_run _ _ _ _ _ w _ _ Hcommand Hargv) as (r & -> & Hr).
    apply Hr.
  - by rewrite (get_users_untokenized _ _ _ _ _ w _ Hcommand Hargv).
Qed.

End UserSearch.

Section UserSearchClaims.

Import OscProvider.

(** C2, as the spec states it, fails: with two modes selected at once the
    search is run and returns its records; no error is raised. *)
Lemma two_modes_are_accepted :
  exists users,
    get_users (H := Example.env) new Example.api (py "amy") true true false
      Example.start
    = (inr users,
       after_spawn Example.start
         [py "osc"; py "-A"; Example.api; py "api";
          py "/search/person?match=@login=" ++ dquote ++ py "amy" ++ dquote])
    /\ length users = 1%nat.
Proof. eexists. split; [vm_compute; reflexivity | reflexivity]. Qed.

(** C2 (amended): [get_users] fails with its invalid-search error, a
    [RuntimeError] raised before any command is run, exactly when none of
    the three modes is selected.  With one mode or more selected that error
    is never raised: the query is built and tokenized; when the tokenizing
    succeeds the search command is run, once, and when it fails [get_users]
    fails with [ValueError] and runs nothing. *)
Theorem invalid_search_iff_no_mode `{External}
    (api_url search_text : str) (is_login is_email is_realname : bool)
    (w : world) :
  let run :=
    get_users new api_url search_text is_login is_email is_realname w in
  (fst run = inl (RuntimeError (py "Invalid user search.") None)
   <-> is_login || is_email || is_realname = false)
  /\ (is_login || is_email || is_realname = false -> snd run = w)
  /\ (is_login || is_email || is_realname = true ->
      exists command,
        users_command api_url search_text is_login is_email is_realname
        = Some command
        /\ (forall argv, shlex_split command = Some argv ->
                         snd run = after_spawn w argv)
        /\ (shlex_split command = None -> run = (inl ValueError, w))).
Proof.
  intros run. split; [split |].
  - intros Hrun. destruct (is_login || is_email || is_realname) eqn:Hmode;
      [| done].
    by apply get_users_not_invalid with (w := w) (api_url := api_url)
         (search_text := search_text) in Hmode.
  - intros Hmode. apply orb_false_elim in Hmode as [Hmode ->].
    apply orb_false_elim in Hmode as [-> ->]. done.
  - split.
    + intros Hmode. apply orb_false_elim in Hmode as [Hmode ->].
      apply orb_false_elim in Hmode as [-> ->]. done.
    + intros Hmode.
      destruct (users_command_some api_url search_text _ _ _ Hmode)
        as [command Hcommand].
      exists command. split; [done | split].
      * intros argv Hargv. unfold run.
        by destruct (get_users_run _ _ _ _ _ w _ _ Hcommand Hargv)
          as (r & -> & _).
      * intros Hargv. unfold run.
        by apply (get_users_untokenized _ _ _ _ _ w command).
Qed.

(** A single quote in the search text unbalances the quotation of the
    command line: the search is not run. *)
Example unbalanced_search_is_not_run :
  get_users (H := Example.env) new Example.api (py "o'brien") true false false
    Example.start
  = (inl ValueError, Example.start).
Proof. reflexivity. Qed.

(** C10: the flags are tried in the order login, email, realname.  A set
    login flag fixes the run whatever the other two are, a set email flag
    does so when login is unset, and the query that is run is the one of the
    first set flag; the invalid-search error is raised only when all three
    are unset. *)
Theorem get_users_precedence `{External}
    (api_url search_text : str) (w : world) :
  (forall is_email is_realname,
      get_users new api_url search_text true is_email is_realname w
      = get_users new api_url search_text true false false w)
  /\ (forall is_realname,
        get_users new api_url search_text false true is_realname w
        = get_users new api_url search_text false true false w)
  /\ (forall is_login is_email is_realname command argv,
        users_command api_url search_text is_login is_email is_realname
          = Some command ->
        shlex_split command = Some argv ->
        spawned
          (snd (get_users new api_url search_text is_login is_email
                  is_realname w))
        = spawned w ++ [argv]
        /\ command
           = py "osc -A " ++ api_url
             ++ (if is_login then
                   py " api '/search/person?match=@login=" ++ dquote
                   ++ search_text ++ dquote ++ py "'"
                 else if is_email then
                   py " api '/search/person?match=@email=" ++ dquote
                   ++ search_text ++ dquote ++ py "'"
                 else
                   py " api '/search/person?match=contains(@realname,"
                   ++ dquote ++ search_text ++ dquote ++ py ")'"))
  /\ (forall is_login is_email is_realname,
        fst (get_users new api_url search_text is_login is_email
               is_realname w)
        = inl (RuntimeError (py "Invalid user search.") None) ->
        is_login = false /\ is_email = false /\ is_realname = false).
Proof.
  split; [done | split; [done | split]].
  - intros is_login is_email is_realname command argv Hcommand Hargv. split.
    + by destruct (get_users_run _ _ _ _ _ w _ _ Hcommand Hargv)
        as (r & -> & _).
    + unfold users_command in Hcommand.
      destruct is_login, is_email, is_realname; try discriminate;
        injection Hcommand as <-; by rewrite <- ?app_assoc.
  - intros is_login is_email is_realname Hrun.
    destruct (is_login || is_email || is_realname) eqn:Hmode.
    + by apply get_users_not_invalid with (w := w) (api_url := api_url)
           (search_text := search_text) in Hmode.
    + apply orb_false_elim in Hmode as [Hmode ->].
      by apply orb_false_elim in Hmode as [-> ->].
Qed.

End UserSearchClaims.

(** ** Claims about the group lookup *)

Section GroupLookup.

Context `{External}.

Import OscProvider.

Lemma get_groups_inv (api_url group : str) (is_fulllist : bool)
    (w w' : world) (info : dict) :
  get_groups new api_url group is_fulllist w = (inr info, w') ->
  exists argv tree,
    shlex_split (groups_command api_url group) = Some argv
    /\ returncode (respond argv) = 0%Z
    /\ fromstring (stdout (respond argv)) = Some tree
    /\ info = group_info tree is_fulllist
    /\ w' = after_spawn w argv.
Proof.
  unfold get_groups, except_CalledProcessError, bind, of_option, run_command.
  destruct (shlex_split _) as [argv|] eqn:Hargv; [| discriminate].
  unfold ret at 1.
  destruct (returncode (respond argv) =? 0)%Z eqn:Hcode; [| discriminate].
  destruct (encode (stdout (respond argv))) as [data|] eqn:Hdata;
    [| discriminate].
  unfold ret at 1.
  destruct (etree_fromstring data) as [tree|] eqn:Htree; [| discriminate].
  unfold ret. intros [= <- <-]. exists argv, tree.
  apply Z.eqb_eq in Hcode. unfold fromstring. by rewrite Hdata.
Qed.

Lemma get_groups_ok (api_url group : str) (is_fulllist : bool) (w : world)
    (argv : list str) (tree : etree.element) :
  shlex_split (groups_command api_url group) = Some argv ->
  returncode (respond argv) = 0%Z ->
  fromstring (stdout (respond argv)) = Some tree ->
  get_groups new api_url group is_fulllist w
  = (inr (group_info tree is_fulllist), after_spawn w argv).
Proof.
  intros Hargv Hcode Htree.
  unfold get_groups, except_CalledProcessError, bind, of_option, run_command.
  rewrite Hargv. unfold ret at 1. rewrite Hcode. simpl.
  unfold fromstring in Htree.
  destruct (encode (stdout (respond argv))) as [data|]; [| discriminate].
  unfold ret at 1. by rewrite Htree.
Qed.

End GroupLookup.

Ltac key_ne :=
  let E := fresh "E" in intros E; vm_compute in E; discriminate E.

Lemma group_info_keys (tree : etree.element) (is_fulllist : bool) :
  let info := OscProvider.group_info tree is_fulllist in
  info !! py "Group"
  = Some (match etree.find tree (py "title") with
          | Some title => of_optional (etree.text title)
          | None => PyNone
          end)
  /\ info !! py "Email"
     = Some (match etree.find tree (py "email") with
             | Some email => of_optional (etree.text email)
             | None => PyNone
             end)
  /\ info !! py "Maintainers"
     = Some (PyList (List.map
                       (fun tag => of_optional (etree.get tag (py "userid")))
                       (etree.findall tree (py "maintainer")))).
Proof.
  unfold OscProvider.group_info. destruct is_fulllist; repeat split;
    repeat first [ rewrite lookup_insert_eq; reflexivity
                 | rewrite lookup_insert_ne by key_ne ].
Qed.

Lemma group_info_non_empty (tree : etree.element) (is_fulllist : bool) :
  OscProvider.group_info tree is_fulllist <> ∅
  /\ dict_is_empty (OscProvider.group_info tree is_fulllist) = false.
Proof.
  assert (Hne : OscProvider.group_info tree is_fulllist <> ∅).
  { unfold OscProvider.group_info.
    destruct is_fulllist; apply insert_non_empty. }
  split; [done |]. unfold dict_is_empty.
  apply Nat.eqb_neq. by apply map_size_non_empty_iff.
Qed.

(** C9: whatever [get_groups] returns is a dictionary holding the keys
    [Group], [Email] and [Maintainers], so it is never empty; the wrapper of
    [relx/users.py] therefore never takes its not-found branch and behaves
    as the provider does.  For a well-formed answer the provider does
    return, with [None] for a missing title or email and the empty list for
    no maintainer. *)
Theorem get_groups_never_empty `{External}
    (api_url group : str) (is_fulllist : bool) (w : world) :
  (forall info w',
      OscProvider.get_groups OscProvider.new api_url group is_fulllist w
        = (inr info, w') ->
      is_Some (info !! py "Group")
      /\ is_Some (info !! py "Email")
      /\ is_Some (info !! py "Maintainers")
      /\ info <> ∅
      /\ dict_is_empty info = false)
  /\ users.get_groups create_data_sourcer api_url group is_fulllist w
     = OscProvider.get_groups OscProvider.new api_url group is_fulllist w
  /\ fst (users.get_groups create_data_sourcer api_url group is_fulllist w)
     <> inl (RuntimeError (group ++ py " not found.") None)
  /\ (forall argv tree,
        shlex_split (OscProvider.groups_command api_url group) = Some argv ->
        returncode (respond argv) = 0%Z ->
        fromstring (stdout (respond argv)) = Some tree ->
        exists info,
          users.get_groups create_data_sourcer api_url group is_fulllist w
            = (inr info, after_spawn w argv)
          /\ (etree.find tree (py "title") = None ->
              info !! py "Group" = Some PyNone)
          /\ (etree.find tree (py "email") = None ->
              info !! py "Email" = Some PyNone)
          /\ (etree.findall tree (py "maintainer") = [] ->
              info !! py "Maintainers" = Some (PyList []))).
Proof.
  assert (Hkeys : forall info w',
      OscProvider.get_groups OscProvider.new api_url group is_fulllist w
        = (inr info, w') ->
      is_Some (info !! py "Group")
      /\ is_Some (info !! py "Email")
      /\ is_Some (info !! py "Maintainers")
      /\ info <> ∅
      /\ dict_is_empty info = false).
  { intros info w' Hrun.
    apply get_groups_inv in Hrun as (argv & tree & _ & _ & _ & -> & _).
    destruct (group_info_keys tree is_fulllist) as (Hg & He & Hm).
    destruct (group_info_non_empty tree is_fulllist) as (Hne & Hsize).
    simpl in Hg, He, Hm. rewrite Hg, He, Hm. eauto 10. }
  assert (Hsame :
    users.get_groups create_data_sourcer api_url group is_fulllist w
    = OscProvider.get_groups OscProvider.new api_url group is_fulllist w).
  { unfold users.get_groups, DataSourcer.get_groups, bind. simpl.
    destruct (OscProvider.get_groups _ _ _ _ w) as [[e|info] w'] eqn:Hrun;
      [done |].
    destruct (Hkeys info w' eq_refl) as (_ & _ & _ & _ & ->). done. }
  split; [done | split; [done | split]].
  - rewrite Hsame.
    destruct (OscProvider.get_groups _ _ _ _ w) as [[e|info] w'] eqn:Hrun;
      simpl; [| done].
    intros [= ->]. revert Hrun.
    unfold OscProvider.get_groups, except_CalledProcessError, bind, of_option,
      run_command.
    destruct (shlex_split _) as [argv|]; [| discriminate].
    unfold ret at 1.
    destruct (returncode (respond argv) =? 0)%Z; [| discriminate].
    destruct (encode (stdout (respond argv))) as [data|]; [| discriminate].
    unfold ret at 1. destruct (etree_fromstring data); discriminate.
  - intros argv tree Hargv Hcode Htree.
    exists (OscProvider.group_info tree is_fulllist).
    rewrite Hsame. split; [by apply get_groups_ok |].
    destruct (group_info_keys tree is_fulllist) as (Hg & He & Hm).
    simpl in Hg, He, Hm.
    repeat split; intros Habsent.
    + by rewrite Hg, Habsent.
    + by rewrite He, Habsent.
    + by rewrite Hm, Habsent.
Qed.

(** The group lookup on the example server. *)
Example get_groups_example :
  exists info,
    users.get_groups (H := Example.env) create_data_sourcer Example.api
      (py "qa") false Example.start
    = (inr info,
       after_spawn Example.start
         [py "osc"; py "-A"; Example.api; py "api"; py "/group/qa"])
    /\ info !! py "Group" = Some (PyStr (py "qa"))
    /\ info !! py "Email" = Some PyNone
    /\ info !! py "Maintainers" = Some (PyList [PyStr (py "amy")])
    /\ info !! py "Users" = None.
Proof. eexists. repeat split; vm_compute; reflexivity. Qed.

(** ** Patterns: the matcher against the words of a pattern *)

Section RegexFacts.

Import re.

Lemma nullable_Matches (r : core) : nullable r = true <-> Matches r [].
Proof.
  split.
  - induction r; simpl; intros Hn; try discriminate.
    + constructor.
    + apply andb_true_iff in Hn as [Ha Hb].
      change (@nil N) with (@nil N ++ []). constructor; auto.
    + apply orb_true_iff in Hn as [Ha | Hb];
        [apply MAltL | apply MAltR]; auto.
    + constructor.
  - intros Hm. remember (@nil N) as s eqn:Hs.
    induction Hm; simpl; try discriminate; try done.
    + apply app_eq_nil in Hs as [-> ->]. by rewrite IHHm1, IHHm2.
    + by rewrite IHHm.
    + rewrite IHHm by done. apply orb_true_r.
Qed.

Lemma deriv_sound (c : N) (r : core) :
  forall s, Matches (deriv c r) s -> Matches r (c :: s).
Proof.
  induction r as [| |d| |a IHa b IHb|a IHa b IHb|a IHa]; simpl; intros s Hm.
  - inversion Hm.
  - inversion Hm.
  - destruct (c =? d) eqn:Hcd; inversion Hm; subst.
    apply N.eqb_eq in Hcd as ->. constructor.
  - destruct (c =? 10) eqn:Hc; inversion Hm; subst.
    apply N.eqb_neq in Hc. by constructor.
  - destruct (nullable a) eqn:Hn.
    + inversion Hm as [| | | |? ? ? Hl|? ? ? Hr| |]; subst.
      * inversion Hl; subst.
        change (c :: (s0 ++ t)) with ((c :: s0) ++ t). constructor; auto.
      * change (c :: s) with ([] ++ c :: s).
        constructor; [by apply nullable_Matches | auto].
    + inversion Hm; subst.
      change (c :: (s0 ++ t)) with ((c :: s0) ++ t). constructor; auto.
  - inversion Hm; subst; [apply MAltL | apply MAltR]; auto.
  - inversion Hm; subst.
    change (c :: (s0 ++ t)) with ((c :: s0) ++ t). constructor; auto.
Qed.

Lemma deriv_complete (c : N) (r : core) (w : str) :
  Matches r w -> forall s, w = c :: s -> Matches (deriv c r) s.
Proof.
  induction 1 as [|d|d Hd|a b s1 t Ha IHa Hb IHb|a b s1 Ha IHa|a b s1 Hb IHb
                 |a|a s1 t Ha IHa Hs IHs]; intros s Hw; simpl.
  - discriminate.
  - injection Hw as -> <-. rewrite N.eqb_refl. constructor.
  - injection Hw as -> <-. apply N.eqb_neq in Hd. rewrite Hd. constructor.
  - destruct s1 as [|x s1]; simpl in Hw.
    + subst t. apply nullable_Matches in Ha. rewrite Ha.
      apply MAltR. by apply IHb.
    + injection Hw as -> <-.
      destruct (nullable a); [apply MAltL |]; constructor; auto.
  - apply MAltL. by apply IHa.
  - apply MAltR. by apply IHb.
  - discriminate.
  - destruct s1 as [|x s1]; simpl in Hw.
    + by apply IHs.
    + injection Hw as -> <-. constructor; auto.
Qed.

Lemma accepts_Matches (r : core) (s : str) :
  accepts r s = true <-> Matches r s.
Proof.
  revert r. induction s as [|c s IH]; intros r; simpl.
  - apply nullable_Matches.
  - rewrite IH. split; [apply deriv_sound |].
    intros Hm. by apply (deriv_complete c r (c :: s)).
Qed.

Lemma slice_middle (pre mid post : str) :
  slice (pre ++ mid ++ post) (length pre) (length pre + length mid) = mid.
Proof.
  unfold slice. rewrite drop_app_length.
  replace (length pre + length mid - length pre)%nat with (length mid) by lia.
  apply take_app_length.
Qed.

Lemma slice_split (s : str) (i j : nat) :
  (i <= j)%nat -> (j <= length s)%nat ->
  s = take i s ++ slice s i j ++ drop j s.
Proof.
  intros Hij Hj. unfold slice.
  replace (drop j s) with (drop (j - i) (drop i s)).
  - by rewrite take_drop, take_drop.
  - rewrite drop_drop. f_equal. lia.
Qed.

(** [re.search] succeeds when the pattern matches some stretch of the
    subject, wherever it starts and ends. *)
Lemma search_spans (p : regex) (s : str) :
  search p s = true
  <-> exists i j, (i <= j)%nat /\ (j <= length s)%nat
                  /\ spans p s i j = true.
Proof.
  unfold search, match_at, ends. rewrite existsb_exists. split.
  - intros (i & Hi & Hm). apply in_seq in Hi.
    apply existsb_exists in Hm as (j & Hj & Hs). apply in_seq in Hj.
    exists i, j. repeat split; [lia | lia | done].
  - intros (i & j & Hij & Hj & Hs). exists i. split.
    + apply in_seq. lia.
    + apply existsb_exists. exists j. split; [| done]. apply in_seq. lia.
Qed.

(** For a pattern of the regular core that is: some stretch of the subject
    is a word of the pattern. *)
Lemma search_core (r : core) (s : str) :
  search (of_core r) s = true
  <-> exists pre mid post, s = pre ++ mid ++ post /\ Matches r mid.
Proof.
  rewrite search_spans. simpl. split.
  - intros (i & j & Hij & Hj & Hs). apply accepts_Matches in Hs.
    exists (take i s), (slice s i j), (drop j s).
    split; [by apply slice_split | done].
  - intros (pre & mid & post & -> & Hm).
    exists (length pre), (length pre + length mid)%nat.
    rewrite slice_middle, !length_app. repeat split; [lia | lia |].
    by apply accepts_Matches.
Qed.

(** The three entry points differ: [foo] is found inside [libfoo], which it
    matches neither at the start nor as a whole; anchored at the start it is
    not found there, but it is found in [foobar]. *)
Example search_is_unanchored :
  search (Example.literal (py "foo")) (py "libfoo") = true
  /\ match_ (Example.literal (py "foo")) (py "libfoo") = false
  /\ fullmatch (Example.literal (py "foo")) (py "libfoo") = false
  /\ search (at_start (Example.literal (py "foo"))) (py "libfoo") = false
  /\ search (at_start (Example.literal (py "foo"))) (py "foobar") = true.
Proof. repeat split; vm_compute; reflexivity. Qed.

End RegexFacts.

(** ** The iteration driver *)

Section Driver.

Context `{External}.

Import OscProvider.

Lemma for_each_print (lines : list str) :
  forall w,
    for_each lines print w
    = (inr tt, {| spawned := spawned w;
                  printed := printed w ++ lines;
                  progress := progress w |}).
Proof.
  induction lines as [|line lines IH]; intros w.
  - destruct w. simpl. by rewrite app_nil_r.
  - simpl. unfold bind. simpl. rewrite IH. simpl.
    by rewrite <- app_assoc.
Qed.

Variables (api_url project : str) (invalid_start invalid_extensions : list str).
Variables (repo_name : str) (pattern : re.regex) (argv_of : str -> list str).

(** The body of the loop over the packages. *)
Let visit (package : str) : M unit :=
  (if re.search pattern package then
     lines <- DataSourcer.list_artifacts create_data_sourcer api_url project
                package repo_name invalid_start invalid_extensions ;;
     for_each lines print
   else ret tt) ;;
  progress_update 1.

Let artifacts_of (package : str) : list str :=
  filter_lines (splitlines (strip (stdout (respond (argv_of package)))))
    repo_name invalid_start invalid_extensions [].

Lemma visit_all (packages : list str) :
  (forall p, p ∈ packages -> re.search pattern p = true ->
     shlex_split (artifacts_command api_url project p repo_name)
       = Some (argv_of p)
     /\ returncode (respond (argv_of p)) = 0%Z) ->
  forall w,
    for_each packages visit w
    = (inr tt,
       {| spawned :=
            spawned w
            ++ List.map argv_of (List.filter (re.search pattern) packages);
          printed :=
            printed w
            ++ List.flat_map artifacts_of
                 (List.filter (re.search pattern) packages);
          progress := (progress w + length packages)%nat |}).
Proof.
  induction packages as [|p packages IH]; intros Hok w.
  - destruct w. simpl. by rewrite !app_nil_r, Nat.add_0_r.
  - assert (Hrest : forall q, q ∈ packages -> re.search pattern q = true ->
              shlex_split (artifacts_command api_url project q repo_name)
                = Some (argv_of q)
              /\ returncode (respond (argv_of q)) = 0%Z).
    { intros q Hq. apply Hok. by right. }
    change (for_each (p :: packages) visit w)
      with (bind (visit p) (fun _ => for_each packages visit) w).
    unfold bind at 1. unfold visit at 1. unfold bind at 1.
    simpl List.filter. destruct (re.search pattern p) eqn:Hp.
    + destruct (Hok p) as [Hargv Hcode]; [by left | done |].
      unfold bind at 1, DataSourcer.list_artifacts. simpl.
      rewrite (list_artifacts_ok _ _ _ _ _ _ _ _ Hargv Hcode).
      rewrite for_each_print. simpl. rewrite (IH Hrest). simpl.
      f_equal. f_equal; [by rewrite <- app_assoc | | lia].
      fold (artifacts_of p). by rewrite <- app_assoc.
    + simpl. rewrite (IH Hrest). simpl. f_equal. f_equal. lia.
Qed.

End Driver.

Section DriverClaims.

Import OscProvider artifacts.

(** C8, as the spec states it, fails: the driver catches nothing, so the
    first listing that fails ends the loop.  Here [foo-tools] matches the
    pattern and comes after the failing [foo-broken]: its artifacts are
    never fetched, and of the four packages only the two before the failure
    have advanced the progress. *)
Lemma matching_package_after_failure_is_skipped :
  let packages := [py "libfoo"; py "bar"; py "foo-broken"; py "foo-tools"] in
  let argv_of p :=
    [py "osc"; py "-A"; Example.api; py "ls"; py "proj"; p; py "-b"; py "-r";
     py "standard"] in
  let run :=
    list_artifacs (H := Example.lab) Example.api (py "proj") packages
      [py "_"] [py ".src.rpm"]
      {| name := py "standard"; pattern := py "foo" |} create_data_sourcer
      Example.start in
  re_compile (External := Example.lab) (py "foo")
    = Some (Example.literal (py "foo"))
  /\ re.search (Example.literal (py "foo")) (py "foo-tools") = true
  /\ shlex_split (External := Example.lab)
       (artifacts_command Example.api (py "proj") (py "foo-tools")
          (py "standard"))
     = Some (argv_of (py "foo-tools"))
  /\ (argv_of (py "foo-tools") ∉ spawned (snd run))
  /\ progress (snd run) = 2%nat
  /\ length packages = 4%nat.
Proof.
  repeat split; try (vm_compute; reflexivity).
  intros Hin. apply list_elem_of_In in Hin. vm_compute in Hin.
  destruct Hin as [Heq | [Heq | []]]; discriminate Heq.
Qed.

(** C8 (amended): for a descriptor whose pattern compiles, and provided the
    listing of every selected package tokenizes and exits with code 0, the
    driver fetches the artifacts of exactly the packages in which the
    pattern matches somewhere: a package is selected as soon as the pattern
    matches one stretch of its name, wherever that starts and ends, not only
    the whole name; for a pattern of the regular core that is a stretch
    which is a word of the pattern.  The filtered artifacts of the selected
    packages are printed in order, the other packages spawn nothing and
    print nothing, and the progress counter advances once per package,
    selected or not. *)
Theorem list_artifacs_selects `{External}
    (api_url project : str) (packages : list str)
    (invalid_start invalid_extensions : list str) (repo_info : repo_info)
    (w : world) (compiled : re.regex) (argv_of : str -> list str) :
  re_compile (pattern repo_info) = Some compiled ->
  (forall p, p ∈ packages -> re.search compiled p = true ->
     shlex_split (artifacts_command api_url project p (name repo_info))
       = Some (argv_of p)
     /\ returncode (respond (argv_of p)) = 0%Z) ->
  let selected := List.filter (re.search compiled) packages in
  let artifacts_of p :=
    filter_lines (splitlines (strip (stdout (respond (argv_of p)))))
      (name repo_info) invalid_start invalid_extensions [] in
  list_artifacs api_url project packages invalid_start invalid_extensions
    repo_info create_data_sourcer w
  = (inr tt,
     {| spawned := spawned w ++ List.map argv_of selected;
        printed := printed w ++ List.flat_map artifacts_of selected;
        progress := (progress w + length packages)%nat |})
  /\ (forall p,
        p ∈ selected
        <-> p ∈ packages
            /\ exists i j, (i <= j)%nat /\ (j <= length p)%nat
                           /\ re.spans compiled p i j = true)
  /\ (forall core, compiled = re.of_core core ->
        forall p,
          p ∈ selected
          <-> p ∈ packages
              /\ exists pre mid post,
                   p = pre ++ mid ++ post /\ re.Matches core mid)
  /\ selected `sublist_of` packages.
Proof.
  intros Hcompile Hok selected artifacts_of. split; [| split; [| split]].
  - unfold list_artifacs, bind at 1, of_option. rewrite Hcompile.
    unfold ret at 1.
    apply (visit_all api_url project invalid_start invalid_extensions
             (name repo_info) compiled argv_of packages Hok w).
  - intros p. unfold selected.
    by rewrite !list_elem_of_In, filter_In, search_spans.
  - intros core -> p. unfold selected.
    by rewrite !list_elem_of_In, filter_In, search_core.
  - apply filter_sublist.
Qed.

Lemma list_artifacs_selects_witness :
  let argv_of p :=
    [py "osc"; py "-A"; Example.api; py "ls"; py "proj"; p; py "-b"; py "-r";
     py "standard"] in
  list_artifacs (H := Example.env) Example.api (py "proj")
    [py "libfoo"; py "bar"; py "foo-tools"] [py "_"] [py ".src.rpm"]
    {| name := py "standard"; pattern := py "foo" |} create_data_sourcer
    Example.start
  = (inr tt,
     {| spawned := [argv_of (py "libfoo"); argv_of (py "foo-tools")];
        printed := [py "app-1.0.rpm"; py "app-1.0.rpm"];
        progress := 3 |}).
Proof.
  refine (proj1 (list_artifacs_selects (H := Example.env) Example.api
                   (py "proj") [py "libfoo"; py "bar"; py "foo-tools"]
                   [py "_"] [py ".src.rpm"]
                   {| name := py "standard"; pattern := py "foo" |}
                   Example.start (Example.literal (py "foo"))
                   (fun p => [py "osc"; py "-A"; Example.api; py "ls";
                              py "proj"; p; py "-b"; py "-r"; py "standard"])
                   _ _)).
  - reflexivity.
  - intros p Hp _. apply list_elem_of_In in Hp. simpl in Hp.
    destruct Hp as [<- | [<- | [<- | []]]]; split; reflexivity.
Defined.

End DriverClaims.

(** * Further properties of the code *)

(** ** The filter as a whole *)

Section FilterMore.

Import OscProvider.

Lemma keeps_spec (repo_name : str) (invalid_start invalid_extensions : list str)
    (t : str) :
  keeps repo_name invalid_start invalid_extensions t = true
  <-> (forall p, p ∈ invalid_start -> ~ p `prefix_of` t)
      /\ ~ (repo_name ++ py "/") `prefix_of` t
      /\ (forall e, e ∈ invalid_extensions -> ~ e `suffix_of` t).
Proof.
  unfold keeps. rewrite !andb_true_iff, !negb_true_iff. split.
  - intros [[Hp Hr] He]. repeat split.
    + intros p Hin Hpre.
      assert (startswith_any t invalid_start = true); [| congruence].
      apply startswith_any_spec. exists p. split; [done | apply Hpre].
    + intros Hpre. apply startswith_true_prefix in Hpre. congruence.
    + intros e Hin Hsuf.
      assert (endswith_any t invalid_extensions = true); [| congruence].
      apply endswith_any_spec. exists e. split; [done | apply Hsuf].
  - intros (Hp & Hr & He). repeat split.
    + destruct (startswith_any t invalid_start) eqn:Hs; [| done].
      apply startswith_any_spec in Hs as (p & Hin & Hpre).
      destruct (Hp p Hin). apply Hpre.
    + destruct (startswith t (repo_name ++ py "/")) eqn:Hs; [| done].
      apply startswith_true_prefix in Hs. done.
    + destruct (endswith_any t invalid_extensions) eqn:Hs; [| done].
      apply endswith_any_spec in Hs as (e & Hin & Hsuf).
      destruct (He e Hin). apply Hsuf.
Qed.

Lemma filter_twice (f : str -> bool) (l : list str) :
  List.filter f (List.filter f l) = List.filter f l.
Proof.
  induction l as [|x l IH]; simpl; [done |].
  destruct (f x) eqn:Hx; simpl; [by rewrite Hx, IH | done].
Qed.

Lemma strip_filter_strip (f : str -> bool) (l : list str) :
  List.map strip (List.filter f (List.map strip l))
  = List.filter f (List.map strip l).
Proof.
  induction l as [|x l IH]; simpl; [done |].
  destruct (f (strip x)); simpl; [by rewrite strip_idem, IH | done].
Qed.

Lemma filter_weaker_sublist (f g : str -> bool) (l : list str) :
  (forall x, f x = true -> g x = true) ->
  List.filter f l `sublist_of` List.filter g l.
Proof.
  intros Hfg. induction l as [|x l IH]; simpl; [constructor |].
  destruct (f x) eqn:Hf.
  - rewrite (Hfg x Hf). by constructor.
  - destruct (g x); [by constructor | done].
Qed.

(** X1: a string is in the output of the filter exactly when it is the
    trimmed form of an input line, starts with no invalid prefix and not
    with [repo_name + "/"], and ends with no invalid extension: nothing else
    is dropped and nothing else gets through.  Every string of the output is
    free of surrounding white space. *)
Theorem filter_lines_exact
    (lines : list str) (repo_name : str)
    (invalid_start invalid_extensions : list str) :
  let out :=
    filter_lines lines repo_name invalid_start invalid_extensions [] in
  (forall t,
      t ∈ out
      <-> (exists line, line ∈ lines /\ t = strip line)
          /\ (forall p, p ∈ invalid_start -> ~ p `prefix_of` t)
          /\ ~ (repo_name ++ py "/") `prefix_of` t
          /\ (forall e, e ∈ invalid_extensions -> ~ e `suffix_of` t))
  /\ Forall (fun t => strip t = t) out.
Proof.
  intros out. split.
  - intros t. unfold out. rewrite filter_lines_elem, keeps_spec.
    rewrite list_elem_of_In, in_map_iff.
    split; intros [(line & H1 & H2) Hk]; (split; [| done]); exists line.
    + by rewrite list_elem_of_In.
    + by rewrite <- list_elem_of_In.
  - apply Forall_forall. intros t Ht. unfold out in Ht.
    apply filter_lines_elem in Ht as [Ht _].
    apply list_elem_of_In, in_map_iff in Ht as (line & <- & _).
    apply strip_idem.
Qed.

(** X2: filtering is idempotent: the output of the filter, filtered again
    under the same rules, comes back unchanged. *)
Theorem filter_lines_idempotent
    (lines : list str) (repo_name : str)
    (invalid_start invalid_extensions : list str) :
  filter_lines
    (filter_lines lines repo_name invalid_start invalid_extensions [])
    repo_name invalid_start invalid_extensions []
  = filter_lines lines repo_name invalid_start invalid_extensions [].
Proof.
  rewrite !filter_lines_spec. simpl.
  by rewrite strip_filter_strip, filter_twice.
Qed.

(** X3: the loop only ever appends to what it has accumulated, and it
    treats each line on its own: filtering a concatenation is filtering the
    first part and carrying on with the second, and the result is the
    accumulator followed by the two filtered parts. *)
Theorem filter_lines_app
    (lines1 lines2 acc : list str) (repo_name : str)
    (invalid_start invalid_extensions : list str) :
  filter_lines (lines1 ++ lines2) repo_name invalid_start invalid_extensions
    acc
  = filter_lines lines2 repo_name invalid_start invalid_extensions
      (filter_lines lines1 repo_name invalid_start invalid_extensions acc)
  /\ filter_lines (lines1 ++ lines2) repo_name invalid_start
       invalid_extensions acc
     = acc
       ++ filter_lines lines1 repo_name invalid_start invalid_extensions []
       ++ filter_lines lines2 repo_name invalid_start invalid_extensions [].
Proof.
  rewrite !filter_lines_spec. simpl.
  rewrite List.map_app, List.filter_app. by rewrite <- app_assoc.
Qed.

(** X4: an empty string among the invalid prefixes, or among the invalid
    extensions, empties the output: every string starts and ends with the
    empty string. *)
Theorem filter_lines_empty_rule
    (lines : list str) (repo_name : str)
    (invalid_start invalid_extensions : list str) :
  [] ∈ invalid_start \/ [] ∈ invalid_extensions ->
  filter_lines lines repo_name invalid_start invalid_extensions [] = [].
Proof.
  intros Hrule. rewrite filter_lines_spec. simpl.
  induction lines as [|line lines IH]; simpl; [done |].
  assert (Hk : keeps repo_name invalid_start invalid_extensions (strip line)
               = false).
  { destruct (keeps _ _ _ _) eqn:Hk; [| done].
    apply keeps_spec in Hk as (Hp & _ & He).
    destruct Hrule as [Hin | Hin].
    - destruct (Hp [] Hin). by exists (strip line).
    - destruct (He [] Hin). exists (strip line). by rewrite app_nil_r. }
  by rewrite Hk.
Qed.

Lemma filter_lines_empty_rule_witness :
  filter_lines [py " app-1.0.rpm"; py "standard/x86_64"] (py "standard")
    [py "_"; []] [py ".src.rpm"] []
  = [].
Proof.
  apply (filter_lines_empty_rule [py " app-1.0.rpm"; py "standard/x86_64"]
           (py "standard") [py "_"; []] [py ".src.rpm"]).
  left. right. left.
Defined.

(** X5: rules only remove.  With more invalid prefixes and more invalid
    extensions the output is a subsequence of the output under the fewer
    rules. *)
Theorem filter_lines_more_rules
    (lines : list str) (repo_name : str)
    (invalid_start invalid_extensions more_start more_extensions : list str) :
  filter_lines lines repo_name (invalid_start ++ more_start)
    (invalid_extensions ++ more_extensions) []
  `sublist_of`
  filter_lines lines repo_name invalid_start invalid_extensions [].
Proof.
  rewrite !filter_lines_spec. simpl. apply filter_weaker_sublist.
  intros t. unfold keeps, startswith_any, endswith_any.
  rewrite !existsb_app, !andb_true_iff, !negb_true_iff, !orb_false_iff.
  tauto.
Qed.

End FilterMore.

(** ** The listings on blank and non-blank output *)

Section ListingMore.

Import OscProvider.

Lemma linebreak_isspace (c : N) : islinebreak c = true -> isspace c = true.
Proof.
  unfold islinebreak, isspace.
  rewrite !orb_true_iff, !andb_true_iff, !N.leb_le, !N.eqb_eq. lia.
Qed.

Lemma strip_ends (s : str) :
  strip s <> [] ->
  (exists c t, strip s = c :: t /\ isspace c = false)
  /\ (exists t d, strip s = t ++ [d] /\ isspace d = false).
Proof.
  intros Hne. split.
  - unfold strip in *.
    destruct (lstrip_head s) as [Hnil | (c & t & Hs & Hc)].
    + rewrite Hnil in Hne. done.
    + rewrite Hs, (rstrip_cons_stop c t Hc). eauto.
  - unfold strip, rstrip in *.
    destruct (lstrip_head (rev (lstrip s))) as [Hnil | (d & t & Hs & Hd)].
    + rewrite Hnil in Hne. done.
    + rewrite Hs. simpl. eauto.
Qed.

Lemma not_blank_elem (s : str) (c : N) :
  c ∈ s -> isspace c = false -> strip s <> [].
Proof.
  intros Hin Hc Hs. apply strip_nil_blank in Hs. unfold blank in Hs.
  rewrite forallb_forall in Hs. apply list_elem_of_In in Hin.
  rewrite (Hs c Hin) in Hc. discriminate.
Qed.

Lemma splitlines_from_head (n : nat) :
  forall s cur, (length s <= n)%nat -> cur <> [] ->
    exists l ls, splitlines_from cur s = l :: ls /\ cur `prefix_of` l.
Proof.
  induction n as [|n IH]; intros s cur Hn Hcur.
  - destruct s; [| simpl in Hn; lia]. simpl.
    destruct cur; [done |]. by eexists _, _.
  - destruct s as [|c rest]; simpl.
    { destruct cur; [done |]. by eexists _, _. }
    simpl in Hn. destruct (islinebreak c).
    + destruct rest as [|d rest'];
        [| destruct ((c =? 13) && (d =? 10))]; by eexists _, _.
    + destruct (IH rest (cur ++ [c])) as (l & ls & -> & Hpre);
        [lia | by destruct cur |].
      exists l, ls. split; [done |].
      etransitivity; [| apply Hpre]. by apply prefix_app_r.
Qed.

Lemma splitlines_from_last (n : nat) :
  forall s cur d, (length s <= n)%nat -> islinebreak d = false ->
    exists ls l, splitlines_from cur (s ++ [d]) = ls ++ [l]
                 /\ [d] `suffix_of` l.
Proof.
  assert (Hone : forall cur d, islinebreak d = false ->
            splitlines_from cur [d] = [cur ++ [d]]).
  { intros cur d Hd. simpl. rewrite Hd. by destruct cur. }
  induction n as [|n IH]; intros s cur d Hn Hd.
  - destruct s; [| simpl in Hn; lia]. simpl app. rewrite (Hone cur d Hd).
    exists [], (cur ++ [d]). split; [done | by apply suffix_app_r].
  - destruct s as [|c rest].
    { simpl app. rewrite (Hone cur d Hd).
      exists [], (cur ++ [d]). split; [done | by apply suffix_app_r]. }
    simpl in Hn. simpl. destruct (islinebreak c) eqn:Hc.
    + destruct rest as [|x rest']; simpl.
      * assert ((d =? 10) = false) as ->.
        { apply N.eqb_neq. intros ->. discriminate. }
        rewrite andb_false_r, Hd. by exists [cur], [d].
      * simpl in Hn. destruct ((c =? 13) && (x =? 10)).
        -- destruct (IH rest' [] d) as (ls & l & Heq & Hsuf); [lia | done |].
           exists (cur :: ls), l. by rewrite Heq.
        -- destruct (IH (x :: rest') [] d) as (ls & l & Heq & Hsuf);
             [simpl; lia | done |].
           exists (cur :: ls), l. simpl in Heq. by rewrite Heq.
    + destruct (IH rest (cur ++ [c]) d) as (ls & l & Heq & Hsuf);
        [lia | done |].
      by exists ls, l.
Qed.

(** X6: when the command succeeds with an output that is empty or all white
    space, both listings return the empty list. *)
Theorem listings_of_blank_output `{External}
    (w : world) (argv : list str) :
  returncode (respond argv) = 0%Z ->
  blank (stdout (respond argv)) = true ->
  (forall api_url project,
      shlex_split (packages_command api_url project) = Some argv ->
      list_packages new api_url project w = (inr [], after_spawn w argv))
  /\ (forall api_url project package repo_name invalid_start
             invalid_extensions,
        shlex_split (artifacts_command api_url project package repo_name)
          = Some argv ->
        list_artifacts new api_url project package repo_name invalid_start
          invalid_extensions w
        = (inr [], after_spawn w argv)).
Proof.
  intros Hcode Hblank. apply strip_nil_blank in Hblank. split.
  - intros api_url project Hargv.
    rewrite (list_packages_ok _ _ _ _ Hargv Hcode). by rewrite Hblank.
  - intros api_url project package repo_name invalid_start
      invalid_extensions Hargv.
    rewrite (list_artifacts_ok _ _ _ _ _ _ _ _ Hargv Hcode).
    by rewrite Hblank.
Qed.

(** X7: when the command succeeds with an output that is not blank,
    [list_packages] returns at least one entry, and neither its first nor
    its last entry is the empty string: empty entries come from blank lines
    strictly inside the output. *)
Theorem list_packages_ends_not_empty `{External}
    (api_url project : str) (w : world) (argv : list str) :
  shlex_split (packages_command api_url project) = Some argv ->
  returncode (respond argv) = 0%Z ->
  blank (stdout (respond argv)) = false ->
  exists packages,
    list_packages new api_url project w = (inr packages, after_spawn w argv)
    /\ (exists first rest, packages = first :: rest /\ first <> [])
    /\ (exists front last, packages = front ++ [last] /\ last <> []).
Proof.
  intros Hargv Hcode Hblank.
  rewrite (list_packages_ok _ _ _ _ Hargv Hcode). eexists. split; [done |].
  assert (Hne : strip (stdout (respond argv)) <> []).
  { intros Hs. apply strip_nil_blank in Hs. congruence. }
  destruct (strip_ends _ Hne) as [(c & t & Hhead & Hc) (u & d & Hlast & Hd)].
  split.
  - rewrite Hhead. unfold splitlines. simpl.
    assert (islinebreak c = false) as ->.
    { destruct (islinebreak c) eqn:Hl; [| done].
      apply linebreak_isspace in Hl. congruence. }
    destruct (splitlines_from_head (length t) t [c]) as (l & ls & -> & Hpre);
      [done | done |].
    simpl. eexists _, _. split; [done |].
    apply (not_blank_elem l c); [| done].
    destruct Hpre as [k ->]. by left.
  - rewrite Hlast. unfold splitlines.
    assert (Hl : islinebreak d = false).
    { destruct (islinebreak d) eqn:Hl; [| done].
      apply linebreak_isspace in Hl. congruence. }
    destruct (splitlines_from_last (length u) u [] d) as (ls & l & -> & Hsuf);
      [done | done |].
    rewrite List.map_app. simpl. eexists _, _. split; [done |].
    apply (not_blank_elem l d); [| done].
    destruct Hsuf as [k ->]. apply elem_of_app. right. by left.
Qed.

Lemma listings_of_blank_output_witness :
  let argv := [py "osc"; py "-A"; py "https://idle.example"; py "ls";
               py "proj"] in
  list_packages (H := Example.lab) new (py "https://idle.example")
    (py "proj") Example.start
  = (inr [], after_spawn Example.start argv).
Proof.
  refine (proj1 (listings_of_blank_output (H := Example.lab) Example.start
                   [py "osc"; py "-A"; py "https://idle.example"; py "ls";
                    py "proj"] _ _)
                (py "https://idle.example") (py "proj") _);
    reflexivity.
Defined.

Lemma list_packages_ends_not_empty_witness :
  exists packages,
    list_packages (H := Example.env) new Example.api (py "proj") Example.start
    = (inr packages,
       after_spawn Example.start
         [py "osc"; py "-A"; Example.api; py "ls"; py "proj"])
    /\ (exists first rest, packages = first :: rest /\ first <> [])
    /\ (exists front last, packages = front ++ [last] /\ last <> []).
Proof.
  apply (list_packages_ends_not_empty (H := Example.env) Example.api
           (py "proj") Example.start
           [py "osc"; py "-A"; Example.api; py "ls"; py "proj"]);
    reflexivity.
Defined.

End ListingMore.

(** ** The lookups: keys, records and outcomes *)

Section LookupMore.

Context `{External}.

Import OscProvider.

Lemma user_info_complete (person : etree.element) (w : world) :
  complete person = true ->
  user_info person w = (inr (user_record person), w).
Proof.
  unfold complete, required_children, user_info, user_record, field, bind,
    child_text. simpl.
  destruct (etree.find person (py "login")); [| discriminate].
  destruct (etree.find person (py "email")); [| discriminate].
  destruct (etree.find person (py "realname")); [| discriminate].
  destruct (etree.find person (py "state")); [| discriminate].
  done.
Qed.

Lemma user_info_incomplete (person : etree.element) (w : world) :
  complete person = false ->
  user_info person w = (inl AttributeError, w).
Proof.
  unfold complete, required_children, user_info, bind, child_text. simpl.
  destruct (etree.find person (py "login")); [| done].
  destruct (etree.find person (py "email")); [| done].
  destruct (etree.find person (py "realname")); [| done].
  destruct (etree.find person (py "state")); [discriminate | done].
Qed.

Lemma users_info_of_complete (people : list etree.element) :
  forall (users_info : list dict) (w : world),
    forallb complete people = true ->
    users_info_of people users_info w
    = (inr (users_info ++ List.map user_record people), w).
Proof.
  induction people as [|person people IH]; intros users_info w Hall; simpl.
  - by rewrite app_nil_r.
  - simpl in Hall. apply andb_true_iff in Hall as [Hp Hall].
    unfold bind. rewrite (user_info_complete person w Hp).
    rewrite (IH _ _ Hall). by rewrite <- app_assoc.
Qed.

Lemma users_info_of_incomplete (people : list etree.element) :
  forall (users_info : list dict) (w : world),
    forallb complete people = false ->
    users_info_of people users_info w = (inl AttributeError, w).
Proof.
  induction people as [|person people IH]; intros users_info w Hsome; simpl.
  - discriminate.
  - simpl in Hsome. unfold bind. destruct (complete person) eqn:Hp.
    + rewrite (user_info_complete person w Hp). by apply IH.
    + by rewrite (user_info_incomplete person w Hp).
Qed.

(** The run of [get_users] once the query was built and tokenized. *)
Lemma get_users_steps (api_url search_text : str)
    (is_login is_email is_realname : bool) (w : world)
    (command : str) (argv : list str) :
  users_command api_url search_text is_login is_email is_realname
    = Some command ->
  shlex_split command = Some argv ->
  get_users new api_url search_text is_login is_email is_realname w
  = (if (returncode (respond argv) =? 0)%Z then
       match encode (stdout (respond argv)) with
       | None => inl UnicodeEncodeError
       | Some data =>
           match etree_fromstring data with
           | None => inl XMLSyntaxError
           | Some tree =>
               let people := etree.findall tree (py "person") in
               if forallb complete people
               then inr (List.map user_record people)
               else inl AttributeError
           end
       end
     else
       inl (RuntimeError
              (py "Failed to get user '" ++ search_text ++ py "': "
               ++ strip (stderr (respond argv)))
              (Some (CalledProcessError argv (returncode (respond argv))
                       (stderr (respond argv))))),
     after_spawn w argv).
Proof.
  intros Hcommand Hargv.
  unfold get_users, except_CalledProcessError, bind, of_option, run_command.
  rewrite Hcommand. unfold ret at 1. rewrite Hargv. unfold ret at 1.
  destruct (returncode (respond argv) =? 0)%Z; [| done].
  destruct (encode (stdout (respond argv))) as [data|]; [| done].
  unfold ret at 1.
  destruct (etree_fromstring data) as [tree|]; [| done].
  unfold ret at 1. simpl.
  destruct (etree.findall tree (py "person")) as [|person people] eqn:Hpeople;
    [done |].
  destruct (forallb complete (person :: people)) eqn:Hall.
  - by rewrite (users_info_of_complete _ [] _ Hall).
  - by rewrite (users_info_of_incomplete _ [] _ Hall).
Qed.

(** The same, for an answer that was encoded and parsed. *)
Lemma get_users_parsed (api_url search_text : str)
    (is_login is_email is_realname : bool) (w : world)
    (command : str) (argv : list str) (tree : etree.element) :
  users_command api_url search_text is_login is_email is_realname
    = Some command ->
  shlex_split command = Some argv ->
  returncode (respond argv) = 0%Z ->
  fromstring (stdout (respond argv)) = Some tree ->
  get_users new api_url search_text is_login is_email is_realname w
  = (if forallb complete (etree.findall tree (py "person"))
     then inr (List.map user_record (etree.findall tree (py "person")))
     else inl AttributeError,
     after_spawn w argv).
Proof.
  intros Hcommand Hargv Hcode Htree.
  rewrite (get_users_steps _ _ _ _ _ w _ _ Hcommand Hargv), Hcode. simpl.
  unfold fromstring in Htree.
  destruct (encode (stdout (respond argv))) as [data|]; [| discriminate].
  by rewrite Htree.
Qed.

End LookupMore.

Section LookupClaims.

Import OscProvider.

Lemma user_record_dom (person : etree.element) :
  dom (user_record person)
  = ({[ py "User"; py "Email"; py "Name"; py "State" ]} : gset (list N)).
Proof.
  unfold user_record. rewrite !dom_insert_L, dom_empty_L. set_solver.
Qed.



(** X9: when the search succeeds and every [person] of the answer has its
    [login], [email], [realname] and [state] child, [get_users] returns one
    record per person, in document order; each record has exactly the keys
    [User], [Email], [Name] and [State], holding the texts of those
    children.  An answer without persons gives the empty list. *)
Theorem get_users_records `{External}
    (api_url search_text : str) (is_login is_email is_realname : bool)
    (w : world) (command : str) (argv : list str) (tree : etree.element) :
  users_command api_url search_text is_login is_email is_realname
    = Some command ->
  shlex_split command = Some argv ->
  returncode (respond argv) = 0%Z ->
  fromstring (stdout (respond argv)) = Some tree ->
  forallb complete (etree.findall tree (py "person")) = true ->
  get_users new api_url search_text is_login is_email is_realname w
  = (inr (List.map user_record (etree.findall tree (py "person"))),
     after_spawn w argv)
  /\ Forall (fun info =>
               dom info
               = ({[ py "User"; py "Email"; py "Name"; py "State" ]}
                  : gset (list N)))
            (List.map user_record (etree.findall tree (py "person")))
  /\ (forall person child,
        etree.find person (py "login") = Some child ->
        user_record person !! py "User"
        = Some (of_optional (etree.text child))).
Proof.
  intros Hcommand Hargv Hcode Htree Hall. split; [| split].
  - rewrite (get_users_parsed _ _ _ _ _ w _ _ _ Hcommand Hargv Hcode Htree).
    by rewrite Hall.
  - apply Forall_map, Forall_forall. intros person _. apply user_record_dom.
  - intros person child Hchild. unfold user_record, field.
    repeat rewrite lookup_insert_ne by key_ne.
    by rewrite lookup_insert_eq, Hchild.
Qed.

Lemma get_users_records_witness :
  get_users (H := Example.env) new Example.api (py "amy") true false false
    Example.start
  = (inr (List.map user_record
            (etree.findall Example.users_tree (py "person"))),
     after_spawn Example.start
       [py "osc"; py "-A"; Example.api; py "api";
        py "/search/person?match=@login=" ++ dquote ++ py "amy" ++ dquote]).
Proof.
  refine (proj1 (get_users_records (H := Example.env) Example.api (py "amy")
                   true false false Example.start
                   (py "osc -A https://api.example api '/search/person?match=@login="
                    ++ dquote ++ py "amy" ++ dquote ++ py "'")
                   [py "osc"; py "-A"; Example.api; py "api";
                    py "/search/person?match=@login=" ++ dquote ++ py "amy"
                    ++ dquote]
                   Example.users_tree _ _ _ _ _));
    reflexivity.
Defined.

(** X10: when the search succeeds but some [person] of the answer lacks one
    of the four children, [get_users] fails with [AttributeError]: it
    returns no partial list, not even the records of the persons before the
    incomplete one. *)
Theorem get_users_missing_child `{External}
    (api_url search_text : str) (is_login is_email is_realname : bool)
    (w : world) (command : str) (argv : list str) (tree : etree.element) :
  users_command api_url search_text is_login is_email is_realname
    = Some command ->
  shlex_split command = Some argv ->
  returncode (respond argv) = 0%Z ->
  fromstring (stdout (respond argv)) = Some tree ->
  forallb complete (etree.findall tree (py "person")) = false ->
  get_users new api_url search_text is_login is_email is_realname w
  = (inl AttributeError, after_spawn w argv).
Proof.
  intros Hcommand Hargv Hcode Htree Hsome.
  rewrite (get_users_parsed _ _ _ _ _ w _ _ _ Hcommand Hargv Hcode Htree).
  by rewrite Hsome.
Qed.

Lemma get_users_missing_child_witness :
  get_users (H := Example.lab) new (py "https://partial.example") (py "bob")
    true false false Example.start
  = (inl AttributeError,
     after_spawn Example.start
       [py "osc"; py "-A"; py "https://partial.example"; py "api";
        py "/search/person?match=@login=" ++ dquote ++ py "bob" ++ dquote]).
Proof.
  apply (get_users_missing_child (H := Example.lab)
           (py "https://partial.example") (py "bob") true false false
           Example.start
           (py "osc -A https://partial.example api '/search/person?match=@login="
            ++ dquote ++ py "bob" ++ dquote ++ py "'")
           [py "osc"; py "-A"; py "https://partial.example"; py "api";
            py "/search/person?match=@login=" ++ dquote ++ py "bob" ++ dquote]
           Example.partial_tree);
    reflexivity.
Defined.

(** X11: the wrapper [get_users] of [relx/users.py] turns an empty result
    into an error: when the search succeeds and the answer holds no
    [person], the provider returns the empty list and the wrapper raises
    the not-found [RuntimeError]; with at least one complete person it
    yields the records of the provider unchanged. *)
Theorem users_get_users_not_found `{External}
    (api_url search_text : str) (is_login is_email is_realname : bool)
    (w : world) (command : str) (argv : list str) (tree : etree.element) :
  users_command api_url search_text is_login is_email is_realname
    = Some command ->
  shlex_split command = Some argv ->
  returncode (respond argv) = 0%Z ->
  fromstring (stdout (respond argv)) = Some tree ->
  let people := etree.findall tree (py "person") in
  (people = [] ->
   get_users new api_url search_text is_login is_email is_realname w
   = (inr [], after_spawn w argv)
   /\ users.get_users create_data_sourcer api_url search_text is_login
        is_email is_realname w
      = (inl (RuntimeError (search_text ++ py " not found.") None),
         after_spawn w argv))
  /\ (people <> [] -> forallb complete people = true ->
      users.get_users create_data_sourcer api_url search_text is_login
        is_email is_realname w
      = (inr (List.map user_record people), after_spawn w argv)).
Proof.
  intros Hcommand Hargv Hcode Htree people.
  assert (Hrun := get_users_parsed _ _ _ _ _ w _ _ _ Hcommand Hargv Hcode
                    Htree).
  fold people in Hrun.
  unfold users.get_users, DataSourcer.get_users, bind. simpl.
  rewrite Hrun. split.
  - intros ->. by split.
  - intros Hne Hall. rewrite Hall. by destruct people.
Qed.

Lemma users_get_users_not_found_witness :
  users.get_users (H := Example.lab) create_data_sourcer
    (py "https://empty.example") (py "zed") false true false Example.start
  = (inl (RuntimeError (py "zed" ++ py " not found.") None),
     after_spawn Example.start
       [py "osc"; py "-A"; py "https://empty.example"; py "api";
        py "/search/person?match=@email=" ++ dquote ++ py "zed" ++ dquote]).
Proof.
  refine (proj2 (proj1 (users_get_users_not_found (H := Example.lab)
                   (py "https://empty.example") (py "zed") false true false
                   Example.start
                   (py "osc -A https://empty.example api '/search/person?match=@email="
                    ++ dquote ++ py "zed" ++ dquote ++ py "'")
                   [py "osc"; py "-A"; py "https://empty.example"; py "api";
                    py "/search/person?match=@email=" ++ dquote ++ py "zed"
                    ++ dquote]
                   Example.empty_tree _ _ _ _) _));
    reflexivity.
Defined.

End LookupClaims.

(** ** What the provider does to the world, and how it fails *)

Section Outcomes.

Import OscProvider.

Lemma same_world_spawn (w : world) : at_most_one_spawn w w.
Proof. repeat split. by left. Qed.

Lemma after_spawn_spawn (w : world) (argv : list str) :
  at_most_one_spawn w (after_spawn w argv).
Proof. repeat split. right. by exists argv. Qed.

(** X12: on every path, each of the four operations of the provider spawns
    at most one process, prints nothing and leaves the progress counter
    alone: a failed command is never run again. *)
Theorem provider_spawns_at_most_once `{External}
    (api_url project package repo_name group search_text : str)
    (invalid_start invalid_extensions : list str)
    (is_fulllist is_login is_email is_realname : bool) (w : world) :
  at_most_one_spawn w (snd (list_packages new api_url project w))
  /\ at_most_one_spawn w
       (snd (list_artifacts new api_url project package repo_name
               invalid_start invalid_extensions w))
  /\ at_most_one_spawn w (snd (get_groups new api_url group is_fulllist w))
  /\ at_most_one_spawn w
       (snd (get_users new api_url search_text is_login is_email
               is_realname w)).
Proof.
  repeat split_and.
  - unfold list_packages, bind, of_option, run_command.
    destruct (shlex_split _) as [argv|]; [| apply same_world_spawn].
    unfold ret at 1.
    destruct (returncode (respond argv) =? 0)%Z;
      [| apply after_spawn_spawn].
    destruct (stdout (respond argv)); apply after_spawn_spawn.
  - unfold list_artifacts, bind, of_option, run_command.
    destruct (shlex_split _) as [argv|]; [| apply same_world_spawn].
    unfold ret at 1.
    destruct (returncode (respond argv) =? 0)%Z;
      [| apply after_spawn_spawn].
    destruct (stdout (respond argv)); apply after_spawn_spawn.
  - unfold get_groups, except_CalledProcessError, bind, of_option,
      run_command.
    destruct (shlex_split _) as [argv|]; [| apply same_world_spawn].
    unfold ret at 1.
    destruct (returncode (respond argv) =? 0)%Z;
      [| apply after_spawn_spawn].
    destruct (encode (stdout (respond argv))) as [data|];
      [| apply after_spawn_spawn].
    unfold ret at 1.
    destruct (etree_fromstring data); apply after_spawn_spawn.
  - destruct (users_command api_url search_text is_login is_email
                is_realname) as [command|] eqn:Hcommand.
    + destruct (shlex_split command) as [argv|] eqn:Hargv.
      * rewrite (get_users_steps _ _ _ _ _ w _ _ Hcommand Hargv).
        apply after_spawn_spawn.
      * rewrite (get_users_untokenized _ _ _ _ _ w _ Hcommand Hargv).
        apply same_world_spawn.
    + unfold get_users, except_CalledProcessError, bind, of_option.
      rewrite Hcommand. apply same_world_spawn.
Qed.

(** X13: the failures of the lookups are of a few kinds only.  [get_groups]
    fails with [ValueError] from the tokenizing, with [UnicodeEncodeError]
    from the encoding of the answer, with the parser's error, or with a
    [RuntimeError] whose cause is a command that exited with a non-zero
    code; [get_users] can fail in addition with [AttributeError] or with
    the invalid-search error.  Neither lets the failure of the command out
    as it is, and the errors of the encoding and of the parser are not
    wrapped. *)
Theorem lookup_failures `{External}
    (api_url group search_text : str)
    (is_fulllist is_login is_email is_realname : bool) (w : world) :
  let wrapped (e : exn) :=
    exists msg argv code err,
      e = RuntimeError msg (Some (CalledProcessError argv code err))
      /\ code <> 0%Z in
  (forall e,
      fst (get_groups new api_url group is_fulllist w) = inl e ->
      e = ValueError \/ e = UnicodeEncodeError \/ e = XMLSyntaxError
      \/ wrapped e)
  /\ (forall e,
        fst (get_users new api_url search_text is_login is_email
               is_realname w) = inl e ->
        e = ValueError \/ e = UnicodeEncodeError \/ e = XMLSyntaxError
        \/ wrapped e
        \/ e = AttributeError
        \/ e = RuntimeError (py "Invalid user search.") None).
Proof.
  intros wrapped. split; intros e.
  - unfold get_groups, except_CalledProcessError, bind, of_option,
      run_command.
    destruct (shlex_split _) as [argv|]; [| intros [= <-]; by left].
    unfold ret at 1.
    destruct (returncode (respond argv) =? 0)%Z eqn:Hcode.
    + destruct (encode (stdout (respond argv))) as [data|];
        [| intros [= <-]; right; by left].
      unfold ret at 1.
      destruct (etree_fromstring data);
        [discriminate | intros [= <-]; do 2 right; by left].
    + intros [= <-]. do 3 right. apply Z.eqb_neq in Hcode.
      by eexists _, _, _, _.
  - destruct (users_command api_url search_text is_login is_email
                is_realname) as [command|] eqn:Hcommand.
    + destruct (shlex_split command) as [argv|] eqn:Hargv.
      * rewrite (get_users_steps _ _ _ _ _ w _ _ Hcommand Hargv). simpl.
        destruct (returncode (respond argv) =? 0)%Z eqn:Hcode.
        -- destruct (encode (stdout (respond argv))) as [data|];
             [| intros [= <-]; right; by left].
           destruct (etree_fromstring data);
             [| intros [= <-]; do 2 right; by left].
           destruct (forallb complete _); [discriminate |].
           intros [= <-]. do 4 right. by left.
        -- intros [= <-]. do 3 right. left. apply Z.eqb_neq in Hcode.
           by eexists _, _, _, _.
      * rewrite (get_users_untokenized _ _ _ _ _ w _ Hcommand Hargv).
        intros [= <-]. by left.
    + unfold get_users, except_CalledProcessError, bind, of_option.
      rewrite Hcommand. intros [= <-]. by do 5 right.
Qed.

(** A lone surrogate in the answer cannot be encoded: the lookup fails
    before the parser is reached. *)
Example surrogate_is_not_encoded :
  encode (py "<group>" ++ [56448] ++ py "</group>") = None
  /\ encode (py "caf" ++ [233]) = Some (py "caf" ++ [195; 169]).
Proof. split; reflexivity. Qed.

End Outcomes.

(** ** The driver: failures, and the run of [main] *)

Section DriverMore.

Context `{External}.

Import OscProvider artifacts.

Lemma for_each_app {A} (xs ys : list A) (body : A -> M unit) (w : world) :
  for_each (xs ++ ys) body w
  = match for_each xs body w with
    | (inr _, w') => for_each ys body w'
    | (inl e, w') => (inl e, w')
    end.
Proof.
  revert w. induction xs as [|x xs IH]; intros w; simpl; [done |].
  unfold bind. destruct (body x w) as [[e|[]] w']; [done | apply IH].
Qed.

(** One descriptor, all listings succeeding. *)
Lemma list_artifacs_run
    (api_url project : str) (packages : list str)
    (invalid_start invalid_extensions : list str) (repo_info : repo_info)
    (w : world) (compiled : re.regex) (argv_of : str -> list str) :
  re_compile (pattern repo_info) = Some compiled ->
  (forall p, p ∈ packages -> re.search compiled p = true ->
     shlex_split (artifacts_command api_url project p (name repo_info))
       = Some (argv_of p)
     /\ returncode (respond (argv_of p)) = 0%Z) ->
  list_artifacs api_url project packages invalid_start invalid_extensions
    repo_info create_data_sourcer w
  = (inr tt,
     {| spawned :=
          spawned w
          ++ List.map argv_of (List.filter (re.search compiled) packages);
        printed :=
          printed w
          ++ List.flat_map
               (fun p =>
                  filter_lines
                    (splitlines (strip (stdout (respond (argv_of p)))))
                    (name repo_info) invalid_start invalid_extensions [])
               (List.filter (re.search compiled) packages);
        progress := (progress w + length packages)%nat |}).
Proof.
  intros Hcompile Hok.
  unfold list_artifacs, bind at 1, of_option. rewrite Hcompile.
  unfold ret at 1.
  apply (visit_all api_url project invalid_start invalid_extensions
           (name repo_info) compiled argv_of packages Hok w).
Qed.

End DriverMore.

Section DriverMoreClaims.

Import OscProvider artifacts.

(** X14: [list_artifacs] catches nothing.  A pattern that does not compile
    fails the call before any package is looked at.  The first selected
    package whose listing exits with a non-zero code ends the loop with that
    failure: the packages before it were handled, the failing one does not
    advance the progress, and the packages after it are not visited. *)
Theorem list_artifacs_failures `{External}
    (api_url project : str) (invalid_start invalid_extensions : list str)
    (repo_info : repo_info) (w : world) :
  (forall packages,
      re_compile (pattern repo_info) = None ->
      list_artifacs api_url project packages invalid_start
        invalid_extensions repo_info create_data_sourcer w
      = (inl re_error, w))
  /\ (forall before p after compiled argv_of,
        re_compile (pattern repo_info) = Some compiled ->
        (forall q, q ∈ before -> re.search compiled q = true ->
           shlex_split (artifacts_command api_url project q (name repo_info))
             = Some (argv_of q)
           /\ returncode (respond (argv_of q)) = 0%Z) ->
        re.search compiled p = true ->
        shlex_split (artifacts_command api_url project p (name repo_info))
          = Some (argv_of p) ->
        returncode (respond (argv_of p)) <> 0%Z ->
        list_artifacs api_url project (before ++ p :: after) invalid_start
          invalid_extensions repo_info create_data_sourcer w
        = (inl (CalledProcessError (argv_of p)
                  (returncode (respond (argv_of p)))
                  (stderr (respond (argv_of p)))),
           {| spawned :=
                spawned w
                ++ List.map argv_of (List.filter (re.search compiled) before)
                ++ [argv_of p];
              printed :=
                printed w
                ++ List.flat_map
                     (fun q =>
                        filter_lines
                          (splitlines
                             (strip (stdout (respond (argv_of q)))))
                          (name repo_info) invalid_start invalid_extensions
                          [])
                     (List.filter (re.search compiled) before);
              progress := (progress w + length before)%nat |})).
Proof.
  split.
  - intros packages Hcompile. unfold list_artifacs, bind, of_option.
    by rewrite Hcompile.
  - intros before p after compiled argv_of Hcompile Hok Hp Hargv Hcode.
    unfold list_artifacs, bind at 1, of_option. rewrite Hcompile.
    unfold ret at 1. rewrite for_each_app.
    rewrite (visit_all api_url project invalid_start invalid_extensions
               (name repo_info) compiled argv_of before Hok w).
    simpl. unfold bind at 1. rewrite Hp. unfold bind at 1.
    unfold bind at 1, DataSourcer.list_artifacts. simpl.
    unfold list_artifacts, bind, of_option, run_command.
    rewrite Hargv. unfold ret at 1. apply Z.eqb_neq in Hcode.
    rewrite Hcode. unfold after_spawn. simpl. by rewrite <- app_assoc.
Qed.

(** The second environment: the listing of [foo-broken] fails, and
    [foo-tools], which comes after it, is never listed. *)
Example list_artifacs_failures_example :
  let argv_of p :=
    [py "osc"; py "-A"; Example.api; py "ls"; py "proj"; p; py "-b"; py "-r";
     py "standard"] in
  list_artifacs (H := Example.lab) Example.api (py "proj")
    [py "libfoo"; py "bar"; py "foo-broken"; py "foo-tools"]
    [py "_"] [py ".src.rpm"]
    {| name := py "standard"; pattern := py "foo" |} create_data_sourcer
    Example.start
  = (inl (CalledProcessError (argv_of (py "foo-broken")) 1
            (py "buildinfo not found" ++ Example.newline)),
     {| spawned := [argv_of (py "libfoo"); argv_of (py "foo-broken")];
        printed := [py "app-1.0.rpm"];
        progress := 2 |}).
Proof.
  refine (proj2 (list_artifacs_failures (H := Example.lab) Example.api
                   (py "proj") [py "_"] [py ".src.rpm"]
                   {| name := py "standard"; pattern := py "foo" |}
                   Example.start)
                [py "libfoo"; py "bar"] (py "foo-broken") [py "foo-tools"]
                (Example.literal (py "foo"))
                (fun p => [py "osc"; py "-A"; Example.api; py "ls";
                           py "proj"; p; py "-b"; py "-r"; py "standard"])
                _ _ _ _ _).
  - reflexivity.
  - intros q Hq _. apply list_elem_of_In in Hq. simpl in Hq.
    destruct Hq as [<- | [<- | []]]; split; reflexivity.
  - reflexivity.
  - reflexivity.
  - vm_compute. discriminate.
Defined.

End DriverMoreClaims.

Section MainRun.

Context `{External}.

Import OscProvider artifacts.

Variables (api_url project : str) (packages : list str).
Variables (invalid_start invalid_extensions : list str).
Variables (compiled : repo_info -> re.regex).
Variables (argv_of : repo_info -> str -> list str).

Let selected (r : repo_info) : list str :=
  List.filter (re.search (compiled r)) packages.

Let artifacts_of (r : repo_info) (p : str) : list str :=
  filter_lines (splitlines (strip (stdout (respond (argv_of r p)))))
    (name r) invalid_start invalid_extensions [].

Lemma descriptors_run (repos : list repo_info) :
  (forall r, r ∈ repos -> re_compile (pattern r) = Some (compiled r)) ->
  (forall r p, r ∈ repos -> p ∈ packages ->
     re.search (compiled r) p = true ->
     shlex_split (artifacts_command api_url project p (name r))
       = Some (argv_of r p)
     /\ returncode (respond (argv_of r p)) = 0%Z) ->
  forall w,
    for_each repos
      (fun r =>
         list_artifacs api_url project packages invalid_start
           invalid_extensions r create_data_sourcer) w
    = (inr tt,
       {| spawned :=
            spawned w
            ++ List.flat_map (fun r => List.map (argv_of r) (selected r))
                 repos;
          printed :=
            printed w
            ++ List.flat_map
                 (fun r => List.flat_map (artifacts_of r) (selected r)) repos;
          progress := (progress w + length repos * length packages)%nat |}).
Proof.
  induction repos as [|r repos IH]; intros Hcompile Hok w.
  - destruct w. simpl. by rewrite !app_nil_r, Nat.add_0_r.
  - simpl. unfold bind.
    rewrite (list_artifacs_run api_url project packages invalid_start
               invalid_extensions r w (compiled r) (argv_of r)).
    + rewrite IH.
      * simpl. f_equal. f_equal; [by rewrite <- app_assoc | | lia].
        by rewrite <- app_assoc.
      * intros r' Hr'. apply Hcompile. by right.
      * intros r' p Hr'. apply Hok. by right.
    + apply Hcompile. by left.
    + intros p. apply Hok. by left.
Qed.

End MainRun.

Section MainClaims.

Import OscProvider artifacts.

(** X15: when the package listing succeeds, every pattern compiles and the
    listings of the selected packages succeed, [main] ends normally with the
    progress advanced by exactly the total it announced, the number of
    descriptors times the number of packages.  It has run the package
    listing once, then, descriptor by descriptor and in package order, the
    listing of each selected package, and printed their filtered artifacts
    in that order. *)
Theorem main_runs_to_the_total `{External}
    (args : Namespace) (config : artifacts_config) (w : world)
    (argv : list str) (compiled : repo_info -> re.regex)
    (argv_of : repo_info -> str -> list str) :
  shlex_split (packages_command (osc_instance args) (project args))
    = Some argv ->
  returncode (respond argv) = 0%Z ->
  let packages := List.map strip (splitlines (strip (stdout (respond argv)))) in
  (forall r, r ∈ repo_info_list config ->
     re_compile (pattern r) = Some (compiled r)) ->
  (forall r p, r ∈ repo_info_list config -> p ∈ packages ->
     re.search (compiled r) p = true ->
     shlex_split
       (artifacts_command (osc_instance args) (project args) p (name r))
       = Some (argv_of r p)
     /\ returncode (respond (argv_of r p)) = 0%Z) ->
  let selected r := List.filter (re.search (compiled r)) packages in
  let artifacts_of r p :=
    filter_lines (splitlines (strip (stdout (respond (argv_of r p)))))
      (name r) (invalid_start config) (invalid_extensions config) [] in
  main args config create_data_sourcer w
  = (inr tt,
     {| spawned :=
          spawned w
          ++ argv
             :: List.flat_map (fun r => List.map (argv_of r) (selected r))
                  (repo_info_list config);
        printed :=
          printed w
          ++ List.flat_map
               (fun r => List.flat_map (artifacts_of r) (selected r))
               (repo_info_list config);
        progress := (progress w + total_steps config packages)%nat |}).
Proof.
  intros Hargv Hcode packages Hcompile Hok selected artifacts_of.
  unfold main, bind at 1, DataSourcer.list_packages. simpl.
  rewrite (list_packages_ok _ _ _ _ Hargv Hcode). fold packages.
  unfold progress_add_task, bind at 1, ret at 1.
  rewrite (descriptors_run (osc_instance args) (project args) packages
             (invalid_start config) (invalid_extensions config) compiled
             argv_of (repo_info_list config) Hcompile Hok).
  unfold total_steps. simpl. f_equal. f_equal. by rewrite <- app_assoc.
Qed.

Lemma main_runs_to_the_total_witness :
  let argv_of (repo p : str) :=
    [py "osc"; py "-A"; Example.api; py "ls"; py "proj"; p; py "-b"; py "-r";
     repo] in
  main (H := Example.env)
    {| osc_instance := Example.api; project := py "proj" |}
    {| repo_info_list := [ {| name := py "standard"; pattern := py "foo" |};
                           {| name := py "standard"; pattern := py "bar" |} ];
       invalid_start := [py "_"];
       invalid_extensions := [py ".src.rpm"] |}
    create_data_sourcer Example.start
  = (inr tt,
     {| spawned := [ [py "osc"; py "-A"; Example.api; py "ls"; py "proj"];
                     argv_of (py "standard") (py "libfoo");
                     argv_of (py "standard") (py "foo-tools");
                     argv_of (py "standard") (py "bar") ];
        printed := [py "app-1.0.rpm"; py "app-1.0.rpm"; py "app-1.0.rpm"];
        progress := 8 |}).
Proof.
  refine (main_runs_to_the_total (H := Example.env)
            {| osc_instance := Example.api; project := py "proj" |}
            {| repo_info_list :=
                 [ {| name := py "standard"; pattern := py "foo" |};
                   {| name := py "standard"; pattern := py "bar" |} ];
               invalid_start := [py "_"];
               invalid_extensions := [py ".src.rpm"] |}
            Example.start
            [py "osc"; py "-A"; Example.api; py "ls"; py "proj"]
            (fun r => Example.literal (pattern r))
            (fun r p => [py "osc"; py "-A"; Example.api; py "ls"; py "proj";
                         p; py "-b"; py "-r"; name r])
            _ _ _ _).
  - reflexivity.
  - reflexivity.
  - intros r _. reflexivity.
  - intros r p Hr Hp Hs.
    apply list_elem_of_In in Hr. apply list_elem_of_In in Hp.
    simpl in Hr. vm_compute in Hp.
    destruct Hr as [<- | [<- | []]];
      destruct Hp as [<- | [<- | [<- | [<- | []]]]];
      try (vm_compute in Hs; discriminate Hs); split; reflexivity.
Defined.

(** X18: when the package listing exits with a non-zero code, [main] fails
    with that failure as it is: no descriptor is looked at, no pattern is
    compiled, nothing is printed and the progress does not move. *)
Theorem main_without_packages `{External}
    (args : Namespace) (config : artifacts_config) (w : world)
    (argv : list str) :
  shlex_split (packages_command (osc_instance args) (project args))
    = Some argv ->
  returncode (respond argv) <> 0%Z ->
  main args config create_data_sourcer w
  = (inl (CalledProcessError argv (returncode (respond argv))
            (stderr (respond argv))),
     after_spawn w argv).
Proof.
  intros Hargv Hcode. apply Z.eqb_neq in Hcode.
  unfold main, bind at 1, DataSourcer.list_packages. simpl.
  unfold list_packages, bind, of_option, run_command.
  rewrite Hargv. unfold ret at 1. by rewrite Hcode.
Qed.

Lemma main_without_packages_witness :
  main (H := Example.env)
    {| osc_instance := Example.down; project := py "proj" |}
    {| repo_info_list := [ {| name := py "standard"; pattern := py "foo" |} ];
       invalid_start := [py "_"];
       invalid_extensions := [py ".src.rpm"] |}
    create_data_sourcer Example.start
  = (inl (CalledProcessError
            [py "osc"; py "-A"; Example.down; py "ls"; py "proj"] 1
            (py "Server returned an error: HTTP Error 503"
             ++ Example.newline)),
     after_spawn Example.start
       [py "osc"; py "-A"; Example.down; py "ls"; py "proj"]).
Proof.
  refine (main_without_packages (H := Example.env)
            {| osc_instance := Example.down; project := py "proj" |}
            {| repo_info_list :=
                 [ {| name := py "standard"; pattern := py "foo" |} ];
               invalid_start := [py "_"];
               invalid_extensions := [py ".src.rpm"] |}
            Example.start
            [py "osc"; py "-A"; Example.down; py "ls"; py "proj"] _ _).
  - reflexivity.
  - vm_compute. discriminate.
Defined.

End MainClaims.

(** ** The command lines through [shlex.split] *)

Section ShlexFacts.

Import shlex.

Lemma read_word_plain (s : str) :
  forall (quoted : bool) (token rest : str),
    forallb plain s = true ->
    read Word quoted token (s ++ rest) = read Word quoted (token ++ s) rest.
Proof.
  induction s as [|c s IH]; intros quoted token rest Hs; simpl.
  - by rewrite app_nil_r.
  - simpl in Hs. apply andb_true_iff in Hs as [Hc Hs].
    unfold plain in Hc. rewrite !andb_true_iff, !negb_true_iff in Hc.
    destruct Hc as [[-> ->] ->]. rewrite (IH _ _ _ Hs).
    by rewrite <- app_assoc.
Qed.

Lemma read_blank_start (c : N) (s : str) :
  plain c = true -> read Blank false [] (c :: s) = read Word false [c] s.
Proof.
  unfold plain. rewrite !andb_true_iff, !negb_true_iff.
  intros [[Hw Hq] He]. simpl. by rewrite Hw, Hq, He.
Qed.

(** A word followed by a blank is one token; the reading goes on. *)
Lemma read_blank_word (s rest : str) :
  word s = true ->
  read Blank false [] (s ++ 32 :: rest)
  = option_map (cons s) (read Blank false [] rest).
Proof.
  destruct s as [|c s]; [discriminate |]. unfold word. intros Hs.
  simpl in Hs. apply andb_true_iff in Hs as [Hc Hs]. simpl app.
  rewrite (read_blank_start c _ Hc), (read_word_plain s _ _ _ Hs).
  reflexivity.
Qed.

Lemma read_blank_word_end (s : str) :
  word s = true -> read Blank false [] s = Some [s].
Proof.
  destruct s as [|c s]; [discriminate |]. unfold word. intros Hs.
  simpl in Hs. apply andb_true_iff in Hs as [Hc Hs].
  rewrite (read_blank_start c _ Hc), <- (app_nil_r s) at 1.
  by rewrite (read_word_plain s _ _ _ Hs).
Qed.

(** Inside quotes everything up to the closing quote is kept, provided no
    backslash occurs between double quotes. *)
Lemma read_quote (q : N) (s : str) :
  forall (quoted : bool) (token rest : str),
    forallb (fun c => negb (c =? q) && negb (escape c && (q =? 34))) s = true ->
    read (Quote q) quoted token (s ++ q :: rest)
    = read Word true (token ++ s) rest.
Proof.
  induction s as [|c s IH]; intros quoted token rest Hs; simpl.
  - by rewrite N.eqb_refl, app_nil_r.
  - simpl in Hs. apply andb_true_iff in Hs as [Hc Hs].
    apply andb_true_iff in Hc as [Hq He]. apply negb_true_iff in Hq, He.
    rewrite Hq, He, (IH _ _ _ Hs). by rewrite <- app_assoc.
Qed.

(** The API commands: the request is the one quoted argument. *)
Lemma split_api_command (api_url request : str) (q : N) :
  word api_url = true ->
  quotes q = true ->
  forallb (fun c => negb (c =? q) && negb (escape c && (q =? 34))) request
    = true ->
  split (py "osc" ++ 32 :: py "-A" ++ 32 :: api_url ++ 32 :: py "api"
         ++ 32 :: q :: request ++ [q])
  = Some [py "osc"; py "-A"; api_url; py "api"; request].
Proof.
  intros Hapi Hq Hrequest. unfold split.
  rewrite !read_blank_word by (reflexivity || assumption).
  assert (Hstart : forall s, read Blank false [] (q :: s)
                             = read (Quote q) false [] s).
  { intros s. simpl. rewrite Hq.
    assert (whitespace q = false) as ->.
    { unfold quotes in Hq. apply orb_true_iff in Hq.
      rewrite !N.eqb_eq in Hq. by destruct Hq as [-> | ->]. }
    assert (escape q = false) as ->; [| done].
    unfold quotes in Hq. apply orb_true_iff in Hq.
    rewrite !N.eqb_eq in Hq. by destruct Hq as [-> | ->]. }
  rewrite Hstart, (read_quote q request _ _ _ Hrequest). simpl.
  by destruct request.
Qed.

End ShlexFacts.

Section ShlexClaims.

Import OscProvider.

(** X16: tokenized by [shlex.split], the listing commands are the argument
    vectors one expects as long as the instance, the project, the package
    and the repository name are words: not empty, without blank, quote or
    backslash.  An empty package name leaves no argument at all: the
    command line then lists the project with the options of a package
    listing. *)
Theorem listing_commands_tokenized (api_url project : str) :
  shlex.word api_url = true ->
  shlex.word project = true ->
  shlex.split (packages_command api_url project)
  = Some [py "osc"; py "-A"; api_url; py "ls"; project]
  /\ (forall package repo_name,
        shlex.word package = true ->
        shlex.word repo_name = true ->
        shlex.split (artifacts_command api_url project package repo_name)
        = Some [py "osc"; py "-A"; api_url; py "ls"; project; package;
                py "-b"; py "-r"; repo_name])
  /\ (forall repo_name,
        shlex.word repo_name = true ->
        shlex.split (artifacts_command api_url project [] repo_name)
        = Some [py "osc"; py "-A"; api_url; py "ls"; project;
                py "-b"; py "-r"; repo_name]).
Proof.
  intros Hapi Hproject. split; [| split].
  - unfold packages_command.
    change (py "osc -A " ++ api_url ++ py " ls " ++ project)
      with (py "osc" ++ 32 :: py "-A" ++ 32 :: api_url ++ 32 :: py "ls"
            ++ 32 :: project).
    unfold shlex.split.
    rewrite !read_blank_word by (reflexivity || assumption).
    by rewrite read_blank_word_end.
  - intros package repo_name Hpackage Hrepo. unfold artifacts_command.
    change (py "osc -A " ++ api_url ++ py " ls " ++ project ++ py " "
            ++ package ++ py " -b -r " ++ repo_name)
      with (py "osc" ++ 32 :: py "-A" ++ 32 :: api_url ++ 32 :: py "ls"
            ++ 32 :: project ++ 32 :: package ++ 32 :: py "-b" ++ 32
            :: py "-r" ++ 32 :: repo_name).
    unfold shlex.split.
    rewrite !read_blank_word by (reflexivity || assumption).
    by rewrite read_blank_word_end.
  - intros repo_name Hrepo. unfold artifacts_command.
    change (py "osc -A " ++ api_url ++ py " ls " ++ project ++ py " "
            ++ [] ++ py " -b -r " ++ repo_name)
      with (py "osc" ++ 32 :: py "-A" ++ 32 :: api_url ++ 32 :: py "ls"
            ++ 32 :: project ++ 32 :: 32 :: py "-b" ++ 32
            :: py "-r" ++ 32 :: repo_name).
    unfold shlex.split.
    rewrite !read_blank_word by (reflexivity || assumption).
    change (shlex.read shlex.Blank false []
              (32 :: py "-b" ++ 32 :: py "-r" ++ 32 :: repo_name))
      with (shlex.read shlex.Blank false []
              (py "-b" ++ 32 :: py "-r" ++ 32 :: repo_name)).
    rewrite !read_blank_word by (reflexivity || assumption).
    by rewrite read_blank_word_end.
Qed.

Lemma listing_commands_tokenized_witness :
  shlex.split (packages_command Example.api (py "proj"))
  = Some [py "osc"; py "-A"; Example.api; py "ls"; py "proj"]
  /\ (forall package repo_name,
        shlex.word package = true ->
        shlex.word repo_name = true ->
        shlex.split
          (artifacts_command Example.api (py "proj") package repo_name)
        = Some [py "osc"; py "-A"; Example.api; py "ls"; py "proj"; package;
                py "-b"; py "-r"; repo_name])
  /\ (forall repo_name,
        shlex.word repo_name = true ->
        shlex.split (artifacts_command Example.api (py "proj") [] repo_name)
        = Some [py "osc"; py "-A"; Example.api; py "ls"; py "proj";
                py "-b"; py "-r"; repo_name]).
Proof.
  apply (listing_commands_tokenized Example.api (py "proj")); reflexivity.
Defined.

(** X17: the API commands quote their request.  A group name without
    double quote and backslash, blanks included, reaches the command as the
    single argument [/group/<name>]; a search text without single quote
    reaches it inside the single argument of the search request, double
    quotes and backslashes included. *)
Theorem api_commands_tokenized (api_url : str) :
  shlex.word api_url = true ->
  (forall group,
      forallb (fun c => negb (c =? 34) && negb (c =? 92)) group = true ->
      shlex.split (groups_command api_url group)
      = Some [py "osc"; py "-A"; api_url; py "api"; py "/group/" ++ group])
  /\ (forall search_text is_login is_email is_realname command,
        forallb (fun c => negb (c =? 39)) search_text = true ->
        users_command api_url search_text is_login is_email is_realname
          = Some command ->
        shlex.split command
        = Some [py "osc"; py "-A"; api_url; py "api";
                if is_login then
                  py "/search/person?match=@login=" ++ dquote
                  ++ search_text ++ dquote
                else if is_email then
                  py "/search/person?match=@email=" ++ dquote
                  ++ search_text ++ dquote
                else
                  py "/search/person?match=contains(@realname," ++ dquote
                  ++ search_text ++ dquote ++ py ")"]).
Proof.
  intros Hapi. split.
  - intros group Hgroup. unfold groups_command.
    change (py "osc -A " ++ api_url ++ py " api " ++ dquote ++ py "/group/"
            ++ group ++ dquote)
      with (py "osc" ++ 32 :: py "-A" ++ 32 :: api_url ++ 32 :: py "api"
            ++ 32 :: 34 :: (py "/group/" ++ group) ++ [34]).
    apply split_api_command; [done | done |].
    rewrite forallb_app. apply andb_true_iff. split; [reflexivity |].
    rewrite forallb_forall in Hgroup. apply forallb_forall. intros c Hc.
    specialize (Hgroup c Hc). apply andb_true_iff in Hgroup as [-> H92].
    simpl. unfold shlex.escape. apply negb_true_iff in H92.
    by rewrite H92.
  - intros search_text is_login is_email is_realname command Htext Hcommand.
    assert (Hok : forall a b : str,
               forallb (fun c => negb (c =? 39)) a = true ->
               forallb (fun c => negb (c =? 39)) b = true ->
               forallb (fun c => negb (c =? 39)
                                 && negb (shlex.escape c && (39 =? 34)))
                       (a ++ dquote ++ search_text ++ dquote ++ b) = true).
    { intros a b Ha Hb. apply forallb_forall. intros c Hc.
      assert (Hplain : forallb (fun c => negb (c =? 39))
                         (a ++ dquote ++ search_text ++ dquote ++ b) = true).
      { rewrite !forallb_app, Ha, Htext, Hb. reflexivity. }
      rewrite forallb_forall in Hplain. rewrite (Hplain c Hc).
      simpl. by rewrite andb_false_r. }
    unfold users_command in Hcommand.
    destruct is_login; [| destruct is_email; [| destruct is_realname]];
      try discriminate; injection Hcommand as <-.
    + rewrite <- (app_nil_r (_ ++ dquote ++ search_text ++ dquote)),
        <- !app_assoc.
      specialize (Hok (py "/search/person?match=@login=") [] eq_refl eq_refl).
      rewrite <- (split_api_command api_url _ 39 Hapi eq_refl Hok).
      f_equal. simpl. by rewrite <- !app_assoc.
    + rewrite <- (app_nil_r (_ ++ dquote ++ search_text ++ dquote)),
        <- !app_assoc.
      specialize (Hok (py "/search/person?match=@email=") [] eq_refl eq_refl).
      rewrite <- (split_api_command api_url _ 39 Hapi eq_refl Hok).
      f_equal. simpl. by rewrite <- !app_assoc.
    + specialize (Hok (py "/search/person?match=contains(@realname,")
                      (py ")") eq_refl eq_refl).
      rewrite <- (split_api_command api_url _ 39 Hapi eq_refl Hok).
      f_equal. simpl. by rewrite <- !app_assoc.
Qed.

Lemma api_commands_tokenized_witness :
  shlex.split (groups_command Example.api (py "qa team"))
  = Some [py "osc"; py "-A"; Example.api; py "api"; py "/group/qa team"].
Proof.
  refine (proj1 (api_commands_tokenized Example.api _) (py "qa team") _);
    reflexivity.
Defined.

End ShlexClaims.
